(** * MCRealmsDiscordIntegration: the handshake, the Realms client and the poller

    A shallow embedding of
      - [mcrealms/_mcauth.py]   (class [MCAuthenticator]),
      - [mcrealms/mcrclient.py] (class [MCRealmsClient]),
      - [webhooks/webhook.py]   (function [main]),
    followed by the properties of the specification that concern them.

    Python values decoded from JSON are kept as a small universe [pyval];
    exceptions are values of [error]; code that talks to the network runs in
    a state-and-exception monad whose state is the trace of what the process
    did (requests issued, lines printed, sleeps). *)

From Stdlib Require Import Ascii String ZArith QArith Qcanon.
From stdpp Require Import gmap strings list pretty.

Local Open Scope string_scope.
Local Open Scope list_scope.
Set Warnings "-register-all".

(** ** Python runtime: exceptions and results *)

Inductive pykey : Type :=
| KStr (s : string)
| KInt (i : Z).

Inductive error : Type :=
| IndexError                      (* list index out of range *)
| ValueError                      (* unpacking a list of the wrong length, str.index miss *)
| KeyError (key : pykey)          (* missing dict key *)
| TypeError                       (* subscripting or iterating the wrong kind of value *)
| JSONDecodeError                 (* res.json() / json.loads on text that is not JSON *)
| RequestException                (* the transport raised *)
| Exception (msg : string).       (* raise Exception(msg) *)

Inductive result (A : Type) : Type :=
| Ok (a : A)
| Err (e : error).
Arguments Ok {A} a.
Arguments Err {A} e.

(** ** Python strings *)

Module PyStr.

Definition dquote : ascii := "034"%char.
Definition squote : ascii := "039"%char.
Definition newline : ascii := "010"%char.

(** [s.split(sep)] for a one-character separator: always at least one piece. *)
Fixpoint split (sep : ascii) (s : string) : list string :=
  match s with
  | EmptyString => [EmptyString]
  | String c s' =>
      if Ascii.eqb c sep then EmptyString :: split sep s'
      else match split sep s' with
           | [] => [String c EmptyString]
           | piece :: pieces => String c piece :: pieces
           end
  end.

(** Number of occurrences of a character, [s.count(c)]. *)
Fixpoint count (c : ascii) (s : string) : nat :=
  match s with
  | EmptyString => 0
  | String c' s' => (if Ascii.eqb c' c then 1 else 0) + count c s'
  end.

(** [c in s]. *)
Definition contains (c : ascii) (s : string) : bool :=
  negb (Nat.eqb (count c s) 0).

(** [s.index(c)]: position of the first occurrence, [ValueError] if none. *)
Fixpoint index (c : ascii) (s : string) : result nat :=
  match s with
  | EmptyString => Err ValueError
  | String c' s' =>
      if Ascii.eqb c' c then Ok 0%nat
      else match index c s' with
           | Ok i => Ok (S i)
           | Err e => Err e
           end
  end.

(** [s[i:]] for [0 <= i]. *)
Fixpoint drop (i : nat) (s : string) : string :=
  match i, s with
  | O, _ => s
  | S i', String _ s' => drop i' s'
  | S _, EmptyString => EmptyString
  end.

(** [s[:-1]]. *)
Fixpoint drop_last (s : string) : string :=
  match s with
  | EmptyString => EmptyString
  | String c EmptyString => EmptyString
  | String c s' => String c (drop_last s')
  end.

(** [s[i:-1]] for [0 <= i]: the stop index is [len(s) - 1], taken on the
    whole string, so the slice is empty once [i] reaches it. *)
Definition slice_to_last (i : nat) (s : string) : string :=
  drop i (drop_last s).

(** [s.startswith(p)], returning what follows the prefix. *)
Fixpoint strip_prefix (p s : string) : option string :=
  match p, s with
  | EmptyString, _ => Some s
  | String a p', String b s' =>
      if Ascii.eqb a b then strip_prefix p' s' else None
  | String _ _, EmptyString => None
  end.

End PyStr.

(** ** The two regular expressions of [_prepareMicrosoftLogin]

    Both have the shape [lit(.+?)c]: a literal, then a lazy run of at least
    one character other than a newline, then the closing character [c]. *)

Module Re.
Import PyStr.

(** What [(.+?)c] still has to consume once its first character is taken:
    extend one character at a time until the next one is [c]; a newline or
    the end of the text before that makes the attempt fail. *)
Fixpoint lazy_rest (close : ascii) (s : string) : option string :=
  match s with
  | EmptyString => None
  | String c s' =>
      if Ascii.eqb c close then Some EmptyString
      else if Ascii.eqb c newline then None
      else match lazy_rest close s' with
           | Some body => Some (String c body)
           | None => None
           end
  end.

(** The match anchored at the start of [s], as the text of [match.group()]. *)
Definition match_here (lit : string) (close : ascii) (s : string)
  : option string :=
  match strip_prefix lit s with
  | Some (String c rest) =>
      if Ascii.eqb c newline then None
      else match lazy_rest close rest with
           | Some body => Some (lit +:+ String c body +:+ String close EmptyString)
           | None => None
           end
  | _ => None
  end.

(** [re.search]: the match at the leftmost position that has one. *)
Fixpoint search (lit : string) (close : ascii) (s : string) : option string :=
  match match_here lit close s with
  | Some m => Some m
  | None =>
      match s with
      | EmptyString => None
      | String _ s' => search lit close s'
      end
  end.

(** The matches at every start position of the text, leftmost first. *)
Fixpoint all_matches (lit : string) (close : ascii) (s : string) : list string :=
  match match_here lit close s with Some m => [m] | None => [] end ++
  match s with
  | EmptyString => []
  | String _ s' => all_matches lit close s'
  end.

(** [r'value="(.+?)"'] *)
Definition HIDDEN_FIELD_lit : string := "value=" +:+ String dquote EmptyString.
Definition search_hidden_field : string → option string :=
  search HIDDEN_FIELD_lit dquote.

(** [r"urlPost:'(.+?)'"] *)
Definition JS_ASSIGNED_STRING_lit : string := "urlPost:'".
Definition search_url_post : string → option string :=
  search JS_ASSIGNED_STRING_lit squote.

End Re.

(** ** MCAuthenticator._getParamsFromUrl *)

Module Params.
Import PyStr.

(** The body of the [for paramStr in paramsList] loop, threaded over the
    list; [param, val = paramStr.split('=')] raises [ValueError] unless the
    split has exactly two pieces. *)
Fixpoint collect (paramsList : list string) (params : gmap string string)
  : result (gmap string string) :=
  match paramsList with
  | [] => Ok params
  | paramStr :: rest =>
      match split "=" paramStr with
      | [param; val] => collect rest (<[param := val]> params)
      | _ => Err ValueError
      end
  end.

(** [url.split('#')[1]]: what the parser takes as the fragment. *)
Definition fragment (url : string) : result string :=
  match split "#" url !! 1%nat with
  | Some allParamsStr => Ok allParamsStr
  | None => Err IndexError
  end.

Definition _getParamsFromUrl (url : string) : result (gmap string string) :=
  match fragment url with
  | Err e => Err e
  | Ok allParamsStr =>
      let paramsList := split "&" allParamsStr in
      collect paramsList ∅
  end.

End Params.

(** ** Python values decoded from JSON *)

Module Py.

(** What [res.json()] and [json.loads] produce: [None], [bool], [int],
    finite [float] (as the rational it denotes), [str], [list] and [dict]
    with string keys (insertion-ordered, keys distinct). *)
Inductive pyval : Type :=
| PNone
| PBool (b : bool)
| PInt (n : Z)
| PFloat (q : Qc)
| PStr (s : string)
| PList (l : list pyval)
| PDict (d : list (string * pyval)).

Fixpoint assoc (k : string) (d : list (string * pyval)) : option pyval :=
  match d with
  | [] => None
  | (k', v) :: d' => if String.eqb k' k then Some v else assoc k d'
  end.

(** [v[k]] for a string key [k]. *)
Definition getitem (v : pyval) (k : string) : result pyval :=
  match v with
  | PDict d =>
      match assoc k d with
      | Some x => Ok x
      | None => Err (KeyError (KStr k))
      end
  | _ => Err TypeError
  end.

(** [v[0]]. *)
Definition getitem0 (v : pyval) : result pyval :=
  match v with
  | PList (x :: _) => Ok x
  | PList [] => Err IndexError
  | PStr (String c _) => Ok (PStr (String c EmptyString))
  | PStr EmptyString => Err IndexError
  | PDict _ => Err (KeyError (KInt 0))
  | _ => Err TypeError
  end.

Fixpoint chars (s : string) : list pyval :=
  match s with
  | EmptyString => []
  | String c s' => PStr (String c EmptyString) :: chars s'
  end.

(** The items a [for] loop or a comprehension draws from [v]. *)
Definition iter (v : pyval) : result (list pyval) :=
  match v with
  | PList l => Ok l
  | PDict d => Ok (map (λ kv, PStr (fst kv)) d)
  | PStr s => Ok (chars s)
  | _ => Err TypeError
  end.

(** [v != t] for an [int] [t]: numbers compare by value ([True] is [1],
    [5.0] is [5]); every other kind of value differs from an [int]. *)
Definition ne_int (v : pyval) (t : Z) : bool :=
  match v with
  | PInt n => negb (Z.eqb n t)
  | PBool b => negb (Z.eqb (Z.b2z b) t)
  | PFloat q => negb (Qc_eq_bool q (Q2Qc (inject_Z t)))
  | _ => true
  end.

End Py.

(** ** HTTP: requests, responses and the trace of a run *)

Module Http.
Import Py.

Inductive method : Type := GET | POST.

(** The [data=] argument: a string the code built itself, or
    [json.dumps(body)] of a value, kept as the value. *)
Inductive data : Type :=
| Raw (s : string)
| JsonDumps (body : pyval).

Record request : Type := {
  req_method : method;
  req_url : string;
  req_headers : list (string * string);   (* the [headers=] argument *)
  req_data : option data
}.

(** What the code reads off a response: [res.text], [res.url] (the URL
    after redirects) and [res.json()]. *)
Record response : Type := {
  res_text : string;
  res_url : string;
  res_json : result pyval
}.

Inductive printed : Type :=
| Line (s : string)
| Sets (prevPlayers currPlayers newlyOnlinePlayers : gset string).

Inductive event : Type :=
| Request (r : request)
| Print (p : printed)
| Sleep (seconds : Z).

Definition trace : Type := list event.

(** The remote side: the answer to a request given everything the process
    did before, or the exception the transport raises. *)
Definition server : Type := trace → request → result response.

(** Computations that may raise and that extend the trace. An exception
    keeps the trace built so far. *)
Definition M (A : Type) : Type := trace → result A * trace.

Definition ret {A} (a : A) : M A := λ tr, (Ok a, tr).
Definition raise {A} (e : error) : M A := λ tr, (Err e, tr).
Definition bind {A B} (m : M A) (k : A → M B) : M B :=
  λ tr, match m tr with
        | (Ok a, tr') => k a tr'
        | (Err e, tr') => (Err e, tr')
        end.
Definition lift {A} (r : result A) : M A := λ tr, (r, tr).
Definition emit (ev : event) : M unit := λ tr, (Ok tt, tr ++ [ev]).
Definition print (s : string) : M unit := emit (Print (Line s)).

Fixpoint mapM {A B} (f : A → M B) (l : list A) : M (list B) :=
  match l with
  | [] => ret []
  | x :: l' => bind (f x) (λ y, bind (mapM f l') (λ ys, ret (y :: ys)))
  end.

Fixpoint forM_ {A} (f : A → M unit) (l : list A) : M unit :=
  match l with
  | [] => ret tt
  | x :: l' => bind (f x) (λ _, forM_ f l')
  end.

End Http.

Declare Scope py_scope.
Delimit Scope py_scope with py.
Notation "x <- m ;; k" := (Http.bind m (λ x, k))
  (at level 100, m at next level, right associativity) : py_scope.
Notation "m ;;; k" := (Http.bind m (λ _, k))
  (at level 100, right associativity) : py_scope.

(** ** MCAuthenticator *)

Module Auth.
Import PyStr Py Http Params Re.
Local Open Scope py_scope.

Definition MICROSOFT_AUTH_DOMAIN : string := "https://login.live.com".
Definition XBOX_LIVE_AUTH_DOMAIN : string := "https://user.auth.xboxlive.com".
Definition XBOX_LIVE_XSTS_AUTH_DOMAIN : string := "https://xsts.auth.xboxlive.com".
Definition MINECRAFT_AUTH_DOMAIN : string := "https://api.minecraftservices.com".
Definition MOJANG_DOMAIN : string := "https://api.mojang.com".

(** The dict [{'email': email, 'password': password}] built by
    [MCRealmsClient._authenticate]; both keys are always there. *)
Record credentials : Type := { email : string; password : string }.

Definition json_headers : list (string * string) :=
  [("Content-Type", "application/json"); ("Accept", "application/json")].

(** *** The request each stage sends *)

Definition prepare_request : request :=
  {| req_method := GET;
     req_url := MICROSOFT_AUTH_DOMAIN +:+
       "/oauth20_authorize.srf?client_id=000000004C12AE6F&redirect_uri=https://login.live.com/oauth20_desktop.srf&scope=service::user.auth.xboxlive.com::MBI_SSL&display=touch&response_type=token&locale=en";
     req_headers := [];
     req_data := None |}.

Definition login_request (authServerUrl sFTTag : string) (c : credentials)
  : request :=
  {| req_method := POST;
     req_url := authServerUrl;
     req_headers := [("Content-Type", "application/x-www-form-urlencoded")];
     req_data := Some (Raw ("login=" +:+ email c +:+ "&loginfmt=" +:+ email c
                            +:+ "&passwd=" +:+ password c
                            +:+ "&PPFT=" +:+ sFTTag)) |}.

Definition xbox_live_request (accessToken : string) : request :=
  {| req_method := POST;
     req_url := XBOX_LIVE_AUTH_DOMAIN +:+ "/user/authenticate";
     req_headers := json_headers;
     req_data := Some (JsonDumps (PDict
       [("Properties", PDict [("AuthMethod", PStr "RPS");
                              ("SiteName", PStr "user.auth.xboxlive.com");
                              ("RpsTicket", PStr accessToken)]);
        ("RelyingParty", PStr "http://auth.xboxlive.com");
        ("TokenType", PStr "JWT")])) |}.

Definition xsts_request (xboxLiveToken : pyval) : request :=
  {| req_method := POST;
     req_url := XBOX_LIVE_XSTS_AUTH_DOMAIN +:+ "/xsts/authorize";
     req_headers := json_headers;
     req_data := Some (JsonDumps (PDict
       [("Properties", PDict [("SandboxId", PStr "RETAIL");
                              ("UserTokens", PList [xboxLiveToken])]);
        ("RelyingParty", PStr "rp://api.minecraftservices.com/");
        ("TokenType", PStr "JWT")])) |}.

Section WithServer.

(** [repr] of a float, a list or a dict, as [str()] and f-strings use it:
    the interpreter's own printing, not written out here. *)
Context (py_repr : pyval → string).
Context (srv : server).

(** [str(v)], which is also what [f'{v}'] inserts. *)
Definition py_str (v : pyval) : string :=
  match v with
  | PStr s => s
  | PInt n => pretty n
  | PBool true => "True"
  | PBool false => "False"
  | PNone => "None"
  | _ => py_repr v
  end.

Definition minecraft_request (xstsToken userHash : pyval) : request :=
  {| req_method := POST;
     req_url := MINECRAFT_AUTH_DOMAIN +:+ "/authentication/login_with_xbox";
     req_headers := json_headers;
     req_data := Some (JsonDumps (PDict
       [("identityToken",
         PStr ("XBL3.0 x=" +:+ py_str userHash +:+ ";" +:+ py_str xstsToken));
        ("ensureLegacyEnabled", PBool true)])) |}.

(** [session.get], [session.post], [requests.get], [requests.post]: the
    request joins the trace whether or not the transport raises. The cookie
    jar of [requests.Session] is on the remote side of this model: [srv]
    sees the whole trace. *)
Definition send (r : request) : M response :=
  λ tr, (srv tr r, tr ++ [Request r]).

Definition _prepareMicrosoftLogin : M (string * string) :=
  res <- send prepare_request ;;
  match search_hidden_field (res_text res) with
  | None => raise (Exception "SFTTagNotFoundError: sFTTag value was not found")
  | Some sFTTagSource =>
      i <- lift (index dquote sFTTagSource) ;;
      let sFTTag := slice_to_last (i + 1) sFTTagSource in
      match search_url_post (res_text res) with
      | None =>
          raise (Exception "URLPostNotFoundError: url post value was not found")
      | Some urlPostSource =>
          j <- lift (index squote urlPostSource) ;;
          let urlPost := slice_to_last (j + 1) urlPostSource in
          ret (sFTTag, urlPost)
      end
  end.

Definition _authenticateWithMicrosoft (authServerUrl sFTTag : string)
    (c : credentials) : M string :=
  res <- send (login_request authServerUrl sFTTag c) ;;
  loginData <- lift (_getParamsFromUrl (res_url res)) ;;
  match loginData !! "access_token" with
  | Some accessToken => ret accessToken
  | None => raise (KeyError (KStr "access_token"))
  end.

Definition _authenticateWithXboxLive (accessToken : string)
  : M (pyval * pyval) :=
  res <- send (xbox_live_request accessToken) ;;
  resPayload <- lift (res_json res) ;;
  xboxLiveToken <- lift (getitem resPayload "Token") ;;
  displayClaims <- lift (getitem resPayload "DisplayClaims") ;;
  xui <- lift (getitem displayClaims "xui") ;;
  xui0 <- lift (getitem0 xui) ;;
  uhs <- lift (getitem xui0 "uhs") ;;
  ret (xboxLiveToken, uhs).

Definition _getXstsToken (xboxLiveToken : pyval) : M pyval :=
  res <- send (xsts_request xboxLiveToken) ;;
  resPayload <- lift (res_json res) ;;
  xstsToken <- lift (getitem resPayload "Token") ;;
  ret xstsToken.

Definition _authenticateWithMinecraft (xstsToken userHash : pyval) : M pyval :=
  res <- send (minecraft_request xstsToken userHash) ;;
  resPayload <- lift (res_json res) ;;
  accessToken <- lift (getitem resPayload "access_token") ;;
  ret accessToken.

Definition authenticate (c : credentials) : M pyval :=
  prepared <- _prepareMicrosoftLogin ;;
  let '(sFTTag, urlPost) := prepared in
  print "STATUS 200: Successfully prepared for authentication" ;;;
  msAccessToken <- _authenticateWithMicrosoft urlPost sFTTag c ;;
  print "STATUS 200: Authenticated with Microsoft" ;;;
  xbox <- _authenticateWithXboxLive msAccessToken ;;
  let '(xboxLiveToken, userHash) := xbox in
  print "STATUS 200: Authenticated with Xbox Live" ;;;
  xstsToken <- _getXstsToken xboxLiveToken ;;
  print "STATUS 200: Retrieved xsts token" ;;;
  mcAccessToken <- _authenticateWithMinecraft xstsToken userHash ;;
  print "STATUS 200: Authenticated with Minecraft" ;;;
  ret mcAccessToken.

(** *** The directory lookups *)

Definition uid_request (profileName : string) : request :=
  {| req_method := GET;
     req_url := MOJANG_DOMAIN +:+ "/users/profiles/minecraft/" +:+ profileName;
     req_headers := [("Accept", "application/json")];
     req_data := None |}.

Definition getUid (profileName : string) : M pyval :=
  res <- send (uid_request profileName) ;;
  resPayload <- lift (res_json res) ;;
  lift (getitem resPayload "id").

Definition username_request (uid : pyval) : request :=
  {| req_method := GET;
     req_url := MOJANG_DOMAIN +:+ "/user/profiles/" +:+ py_str uid +:+ "/names";
     req_headers := [];
     req_data := None |}.

(** [getUsername] is annotated [-> str], and its callers put the result in
    a [set] of names: the model keeps names as strings and lets a payload
    whose name is of another kind end the lookup with [TypeError], where
    Python would hand the value on unchecked. *)
Definition getUsername (uid : pyval) : M string :=
  res <- send (username_request uid) ;;
  resPayload <- lift (res_json res) ;;
  first <- lift (getitem0 resPayload) ;;
  currProfileName <- lift (getitem first "name") ;;
  match currProfileName with
  | PStr name => ret name
  | _ => raise TypeError
  end.

End WithServer.
End Auth.

(** ** MCRealmsClient *)

Module Client.
Import PyStr Py Http Auth.
Local Open Scope py_scope.

Definition MC_REALMS_DOMAIN : string := "https://pc.realms.minecraft.net".

(** The fields [__init__] sets; [_session] is the trace. *)
Record client : Type := {
  _username : string;
  _accessToken : pyval;
  _uid : pyval
}.

Section WithServer.
Context (json_loads : string → result pyval).
Context (py_repr : pyval → string).
Context (srv : server).

(** The value of the [Cookie] header of [getPlayersList]. *)
Definition cookie (self : client) : string :=
  "sid=token:" +:+ py_str py_repr (_accessToken self) +:+ ":"
  +:+ py_str py_repr (_uid self) +:+ ";user=" +:+ _username self
  +:+ ";version=1.18.2".

Definition players_request (self : client) : request :=
  {| req_method := GET;
     req_url := MC_REALMS_DOMAIN +:+ "/activities/liveplayerlist";
     req_headers := [("Content-Type", "application/json");
                     ("Accept", "application/json");
                     ("Cookie", cookie self)];
     req_data := None |}.

Definition getPlayerName (uid : pyval) : M string :=
  getUsername py_repr srv uid.

(** [json.loads(x)]: only text is decoded. *)
Definition loads (x : pyval) : result pyval :=
  match x with
  | PStr s => json_loads s
  | _ => Err TypeError
  end.

(** Lines 69 to 71: the names of the players of one entry. *)
Definition players_of (serverActivity : pyval) : M (list string) :=
  playerListStr <- lift (getitem serverActivity "playerList") ;;
  playerList <- lift (loads playerListStr) ;;
  players <- lift (iter playerList) ;;
  mapM (λ player,
          playerId <- lift (getitem player "playerId") ;;
          getPlayerName playerId)
       players.

(** The [for serverActivity in serverActivityList] loop with its [continue]
    and its [return], and the [return []] that follows it. *)
Fixpoint scan (targetServerId : Z) (serverActivityList : list pyval)
  : M (list string) :=
  match serverActivityList with
  | [] => ret []
  | serverActivity :: rest =>
      serverId <- lift (getitem serverActivity "serverId") ;;
      if ne_int serverId targetServerId then scan targetServerId rest
      else players_of serverActivity
  end.

Definition getPlayersList (self : client) (targetServerId : Z)
  : M (list string) :=
  res <- send srv (players_request self) ;;
  resPayload <- lift (res_json res) ;;
  serverActivityList <- lift (getitem resPayload "lists") ;;
  entries <- lift (iter serverActivityList) ;;
  scan targetServerId entries.

Definition _authenticate (username email password : string)
  : M (pyval * pyval) :=
  let credentials := {| Auth.email := email; Auth.password := password |} in
  accessToken <- authenticate py_repr srv credentials ;;
  uid <- getUid srv username ;;
  ret (accessToken, uid).

Definition __init__ (username email password : string) : M client :=
  authenticated <- _authenticate username email password ;;
  let '(accessToken, uid) := authenticated in
  ret {| _username := username; _accessToken := accessToken; _uid := uid |}.

End WithServer.
End Client.

(** ** webhook.main *)

Module Webhook.
Import Py Http Auth Client.
Local Open Scope py_scope.

(** The five values read from the environment. *)
Record config : Type := {
  USERNAME : string;
  EMAIL : string;
  PASSWORD : string;
  SERVER_ID : Z;
  DISCORD_WEBHOOKS_URL : string
}.

Definition notification (cfg : config) (playerName : string) : request :=
  {| req_method := POST;
     req_url := DISCORD_WEBHOOKS_URL cfg;
     req_headers := [("Content-Type", "application/json")];
     req_data := Some (JsonDumps (PDict
       [("content",
         PStr ("@everyone " +:+ playerName +:+ " is now playing on the server!"))])) |}.

(** How a run of [main] stands: the exception that left it, with the value
    [prevPlayers] had when it was raised once that variable exists, or the
    loop still going when the observation ends. *)
Inductive outcome : Type :=
| Aborted (e : error)
| Raised (e : error) (prevPlayers : gset string)
| Running (prevPlayers : gset string).

Section WithServer.
Context (json_loads : string → result pyval).
Context (py_repr : pyval → string).
(** The order in which [for playerName in newlyOnlinePlayers] visits a set. *)
Context (set_order : gset string → list string).
Context (srv : server).
Context (cfg : config).

Definition notify (playerName : string) : M unit :=
  res <- send srv (notification cfg playerName) ;;
  ret tt.

(** The [while True] loop, observed for [cycles] iterations. *)
Fixpoint loop (cycles : nat) (realmsClient : client) (prevPlayers : gset string)
    (tr : trace) : outcome * trace :=
  match cycles with
  | O => (Running prevPlayers, tr)
  | S cycles' =>
      match getPlayersList json_loads py_repr srv realmsClient (SERVER_ID cfg) tr with
      | (Err e, tr1) => (Raised e prevPlayers, tr1)
      | (Ok activePlayerNames, tr1) =>
          let currPlayers : gset string := list_to_set activePlayerNames in
          let newlyOnlinePlayers := currPlayers ∖ prevPlayers in
          let tr2 := tr1 ++ [Print (Sets prevPlayers currPlayers newlyOnlinePlayers)] in
          (* prevPlayers = currPlayers *)
          match forM_ notify (set_order newlyOnlinePlayers) tr2 with
          | (Err e, tr3) => (Raised e currPlayers, tr3)
          | (Ok _, tr3) => loop cycles' realmsClient currPlayers (tr3 ++ [Sleep 60])
          end
      end
  end.

(** Lines 17 and 19: the client, then the query that seeds [prevPlayers]. *)
Definition startup : M (client * gset string) :=
  realmsClient <- __init__ py_repr srv (USERNAME cfg) (EMAIL cfg) (PASSWORD cfg) ;;
  names <- getPlayersList json_loads py_repr srv realmsClient (SERVER_ID cfg) ;;
  ret (realmsClient, list_to_set names).

Definition main (cycles : nat) : outcome * trace :=
  match startup [] with
  | (Err e, tr) => (Aborted e, tr)
  | (Ok (realmsClient, prevPlayers), tr) => loop cycles realmsClient prevPlayers tr
  end.

End WithServer.
End Webhook.

(** ** What is observed of a run *)

Module Obs.
Import Py Http Params Webhook.

(** The requests of a trace, in order. *)
Fixpoint requests_of (tr : trace) : list request :=
  match tr with
  | [] => []
  | Request r :: tr' => r :: requests_of tr'
  | _ :: tr' => requests_of tr'
  end.

(** The value of a header of a request. *)
Fixpoint lookup_header (name : string) (headers : list (string * string))
  : option string :=
  match headers with
  | [] => None
  | (k, v) :: headers' =>
      if String.eqb k name then Some v else lookup_header name headers'
  end.

Definition header (name : string) (r : request) : option string :=
  lookup_header name (req_headers r).

(** Every event a computation adds to the trace satisfies [P]. *)
Definition emits {A} (P : event → Prop) (m : M A) : Prop :=
  ∀ tr, ∃ evs, snd (m tr) = tr ++ evs ∧ Forall P evs.

(** [loginData['access_token']] after [_getParamsFromUrl(res.url)], when
    both go through. *)
Definition access_token_of (url : string) : option string :=
  match _getParamsFromUrl url with
  | Ok loginData => loginData !! "access_token"
  | Err _ => None
  end.

(** The exception those two lines raise when they do not. *)
Definition identity_login_error (url : string) : error :=
  match _getParamsFromUrl url with
  | Ok _ => KeyError (KStr "access_token")
  | Err e => e
  end.

(** The value of [prevPlayers], once the variable exists. *)
Definition prevPlayers_of (o : outcome) : option (gset string) :=
  match o with
  | Aborted _ => None
  | Raised _ prevPlayers => Some prevPlayers
  | Running prevPlayers => Some prevPlayers
  end.

Definition is_notification (cfg : config) (ev : event) : Prop :=
  ∃ playerName, ev = Request (notification cfg playerName).

(** An entry of the player-list answer that the loop of [getPlayersList]
    looks at and passes over: it has a [serverId], which differs from the
    target. *)
Definition passed_over (targetServerId : Z) (serverActivity : pyval) : Prop :=
  ∃ serverId, getitem serverActivity "serverId" = Ok serverId
              ∧ ne_int serverId targetServerId = true.

(** An entry whose [serverId] is the target's. *)
Definition matching (targetServerId : Z) (serverActivity : pyval) : Prop :=
  ∃ serverId, getitem serverActivity "serverId" = Ok serverId
              ∧ ne_int serverId targetServerId = false.

End Obs.

(** ** Fixtures used by the examples *)

Module Fixtures.
Import PyStr Py Http Auth Client Webhook.

(** [value="abc123"] and [urlPost:'https://x/y'], and a page holding both. *)
Definition hidden_field_fixture : string :=
  "value=" +:+ String dquote "abc123" +:+ String dquote EmptyString.
Definition url_post_fixture : string := "urlPost:'https://x/y'".
Definition page_fixture : string :=
  "<input type=hidden name=PPFT " +:+ hidden_field_fixture +:+ "/>"
  +:+ String newline ("<script>var ServerData={" +:+ url_post_fixture
  +:+ ",sErrTxt:''};</script>").

(** A scripted remote side. The Prepare page is [page_fixture]; the login
    POST to [https://x/y] lands on [redirect]; the broker and the token
    service answer with well-formed payloads; the game service answers with
    [mcPayload]; the directory knows the profile [owner] and the players
    [u1] and [u2]; the [n]-th query of the player list is answered by
    [presence n]. The text of the JSON answers is not read by the code and
    is left empty. *)
Definition text_response (text url : string) : response :=
  {| res_text := text; res_url := url; res_json := Err JSONDecodeError |}.

Definition json_response (url : string) (v : pyval) : response :=
  {| res_text := ""; res_url := url; res_json := Ok v |}.

Definition players_url : string :=
  MC_REALMS_DOMAIN +:+ "/activities/liveplayerlist".

Definition count_queries (tr : trace) : nat :=
  length (filter (λ r, req_url r = players_url) (Obs.requests_of tr)).

Definition scripted (redirect : string) (mcPayload : pyval)
    (presence : nat → result pyval) : server :=
  λ tr r,
    let url := req_url r in
    if String.eqb url (req_url prepare_request) then
      Ok (text_response page_fixture url)
    else if String.eqb url "https://x/y" then
      Ok (text_response "" redirect)
    else if String.eqb url (XBOX_LIVE_AUTH_DOMAIN +:+ "/user/authenticate") then
      Ok (json_response url (PDict
        [("Token", PStr "xbl-token");
         ("DisplayClaims", PDict [("xui", PList [PDict [("uhs", PStr "hash")]])])]))
    else if String.eqb url (XBOX_LIVE_XSTS_AUTH_DOMAIN +:+ "/xsts/authorize") then
      Ok (json_response url (PDict [("Token", PStr "xsts-token")]))
    else if String.eqb url (MINECRAFT_AUTH_DOMAIN +:+ "/authentication/login_with_xbox") then
      Ok (json_response url mcPayload)
    else if String.eqb url (MOJANG_DOMAIN +:+ "/users/profiles/minecraft/owner") then
      Ok (json_response url (PDict [("id", PStr "u0"); ("name", PStr "owner")]))
    else if String.eqb url (MOJANG_DOMAIN +:+ "/user/profiles/u1/names") then
      Ok (json_response url (PList [PDict [("name", PStr "Steve")]]))
    else if String.eqb url (MOJANG_DOMAIN +:+ "/user/profiles/u2/names") then
      Ok (json_response url (PList [PDict [("name", PStr "Alex")]]))
    else if String.eqb url players_url then
      match presence (count_queries tr) with
      | Ok v => Ok (json_response url v)
      | Err e => Err e
      end
    else if String.eqb url "https://discord.example/hook" then
      Ok (text_response "" url)
    else Err RequestException.

Definition good_redirect : string :=
  "https://login.live.com/oauth20_desktop.srf#access_token=T1&token_type=bearer".
Definition denied_redirect : string :=
  "https://login.live.com/oauth20_desktop.srf#error=access_denied".
Definition good_mc_payload : pyval :=
  PDict [("username", PStr "x"); ("access_token", PStr "mc-token")].
Definition bad_mc_payload : pyval :=
  PDict [("path", PStr "/authentication/login_with_xbox");
         ("error", PStr "UNAUTHORIZED")].

Definition creds0 : credentials := {| email := "me@example.org"; password := "pw" |}.

Definition cfg0 : config :=
  {| USERNAME := "owner"; EMAIL := "me@example.org"; PASSWORD := "pw";
     SERVER_ID := 7; DISCORD_WEBHOOKS_URL := "https://discord.example/hook" |}.

(** [repr] for the fixtures, whose tokens and ids are all strings. *)
Definition repr0 : pyval → string := λ _, "".

(** The texts [json.loads] is given in the examples, with what it returns
    for them. *)
Definition one_player (uid : string) : string :=
  "[{" +:+ String dquote "playerId" +:+ String dquote ": "
  +:+ String dquote uid +:+ String dquote "}]".

Definition loads0 (s : string) : result pyval :=
  if String.eqb s "[]" then Ok (PList [])
  else if String.eqb s (one_player "u1") then
    Ok (PList [PDict [("playerId", PStr "u1")]])
  else if String.eqb s (one_player "u2") then
    Ok (PList [PDict [("playerId", PStr "u2")]])
  else Err JSONDecodeError.

Definition entry (serverId : Z) (playerList : string) : pyval :=
  PDict [("serverId", PInt serverId); ("playerList", PStr playerList)].

Definition lists_payload (entries : list pyval) : pyval :=
  PDict [("lists", PList entries)].

(** The runs of the examples. *)
Definition no_answer : nat → result pyval := λ _, Err RequestException.

Definition srv_denied : server := scripted denied_redirect good_mc_payload no_answer.
Definition srv_no_service_token : server :=
  scripted good_redirect bad_mc_payload no_answer.

Definition self0 : client :=
  {| _username := "owner"; _accessToken := PStr "mc-token"; _uid := PStr "u0" |}.

Definition answer_no_match : pyval :=
  lists_payload [entry 3 (one_player "u1"); entry 4 "[]"].
Definition srv_no_match : server :=
  scripted good_redirect good_mc_payload (λ _, Ok answer_no_match).

Definition entries_two_matches : list pyval :=
  [entry 3 (one_player "u1"); entry 7 (one_player "u2");
   entry 7 (one_player "u1"); PStr "not an entry"].
Definition srv_two_matches : server :=
  scripted good_redirect good_mc_payload
           (λ _, Ok (lists_payload entries_two_matches)).

(** One player on the target server at startup, then the player list stops
    answering. *)
Definition outage (n : nat) : result pyval :=
  match n with
  | O => Ok (lists_payload [entry 7 (one_player "u1")])
  | S _ => Err RequestException
  end.
Definition srv_outage : server := scripted good_redirect good_mc_payload outage.

(** One player at startup, two at the next query, the same two after. *)
Definition arrivals (n : nat) : result pyval :=
  match n with
  | O => Ok (lists_payload [entry 7 (one_player "u1")])
  | S _ => Ok (lists_payload [entry 7 (one_player "u2")])
  end.
Definition srv_arrivals : server := scripted good_redirect good_mc_payload arrivals.

End Fixtures.

(** ** Further notions used to state properties *)

Module Notions.
Import PyStr Py Http Auth Client Webhook.

(** [sep.join(pieces)]. *)
Fixpoint join (sep : ascii) (pieces : list string) : string :=
  match pieces with
  | [] => EmptyString
  | [piece] => piece
  | piece :: pieces' => piece +:+ String sep (join sep pieces')
  end.

(** The fragment of a URL: what follows its first ['#'], if it has one. *)
Fixpoint url_fragment (url : string) : option string :=
  match url with
  | EmptyString => None
  | String c url' =>
      if Ascii.eqb c "#" then Some url' else url_fragment url'
  end.

(** The text [key=val] of one parameter. *)
Definition param_text (key val : string) : string :=
  key +:+ String "="%char val.

(** [needle in text], for strings. *)
Definition occurs_in (needle text : string) : Prop :=
  ∃ before after, text = before +:+ needle +:+ after.

(** The requests of a handshake that goes through all five stages; the
    parameters are what each stage takes from the one before. *)
Definition handshake_requests (py_repr : pyval → string) (c : credentials)
    (urlPost sFTTag msAccessToken : string)
    (xboxLiveToken userHash xstsToken : pyval) : list request :=
  [prepare_request;
   login_request urlPost sFTTag c;
   xbox_live_request msAccessToken;
   xsts_request xboxLiveToken;
   minecraft_request py_repr xstsToken userHash].

(** A GET of the player list, whoever the client is. *)
Definition is_players_query (ev : event) : bool :=
  match ev with
  | Request r =>
      match req_method r with
      | GET => String.eqb (req_url r)
                          (MC_REALMS_DOMAIN +:+ "/activities/liveplayerlist")
      | POST => false
      end
  | _ => false
  end.

Definition is_sleep (ev : event) : bool :=
  match ev with Sleep _ => true | _ => false end.

(** How many lines a trace prints. *)
Definition printed_lines (tr : trace) : nat :=
  length (List.filter (λ ev, match ev with Print _ => true | _ => false end) tr).

(** How many events of a trace satisfy a test. *)
Definition count_events (test : event → bool) (tr : trace) : nat :=
  length (List.filter test tr).

End Notions.

Module Fixtures2.
Import Py Http Auth Client Webhook Fixtures.

(** A remote side that answers every request with an empty page. *)
Definition srv_blank : server := λ _ _, Ok (text_response "" "").

(** A remote side on which everything works and one player is on the
    target server at every query. *)
Definition srv_steady : server :=
  scripted good_redirect good_mc_payload
           (λ _, Ok (lists_payload [entry 7 (one_player "u1")])).

(** A remote side on which the handshake and the directory work and the
    player list never answers. *)
Definition srv_no_list : server :=
  scripted good_redirect good_mc_payload (λ _, Err RequestException).


(** The text of a list of two players, and [json.loads] knowing it. *)
Definition two_players : string :=
  "[{" +:+ String PyStr.dquote "playerId" +:+ String PyStr.dquote ": "
  +:+ String PyStr.dquote "u1" +:+ String PyStr.dquote "}, {"
  +:+ String PyStr.dquote "playerId" +:+ String PyStr.dquote ": "
  +:+ String PyStr.dquote "u2" +:+ String PyStr.dquote "}]".

Definition loads2 (s : string) : result pyval :=
  if String.eqb s two_players then
    Ok (PList [PDict [("playerId", PStr "u1")]; PDict [("playerId", PStr "u2")]])
  else loads0 s.

(** How many POSTs the sink of [cfg0] has received. *)
Definition sink_posts (tr : trace) : nat :=
  length (filter (λ r, req_url r = DISCORD_WEBHOOKS_URL cfg0)
                 (Obs.requests_of tr)).

(** A remote side on which two players are on the target server and the
    sink answers its first POST and no other. *)
Definition srv_sink_once : server :=
  λ tr r,
    if String.eqb (req_url r) (DISCORD_WEBHOOKS_URL cfg0) then
      match sink_posts tr with
      | O => Ok (text_response "" (req_url r))
      | S _ => Err RequestException
      end
    else scripted good_redirect good_mc_payload
                  (λ _, Ok (lists_payload [entry 7 two_players])) tr r.

End Fixtures2.

(** * Properties *)

(** ** Splitting strings and parsing the fragment *)

Module ParamsFacts.
Import PyStr Params.

Lemma split_length sep s : length (split sep s) = S (count sep s).
Proof.
  induction s as [|c s IH]; simpl; [reflexivity|].
  destruct (Ascii.eqb c sep); simpl.
  - now rewrite IH.
  - destruct (split sep s) as [|p ps] eqn:E; simpl in *; [discriminate|].
    exact IH.
Qed.

Lemma split_absent sep s : contains sep s = false → split sep s = [s].
Proof.
  unfold contains. intros H.
  apply negb_false_iff, Nat.eqb_eq in H.
  induction s as [|c s IH]; simpl in *; [reflexivity|].
  destruct (Ascii.eqb c sep); simpl in *; [discriminate|].
  now rewrite (IH H).
Qed.

Lemma split_two sep s a b : split sep s = [a; b] → count sep s = 1%nat.
Proof.
  intros H. pose proof (split_length sep s) as L.
  rewrite H in L. simpl in L. lia.
Qed.

Lemma split_two_inv sep s :
  count sep s = 1%nat → ∃ a b, split sep s = [a; b].
Proof.
  intros H. pose proof (split_length sep s) as L. rewrite H in L.
  destruct (split sep s) as [|a [|b [|c l]]]; simpl in L; try lia.
  now exists a, b.
Qed.

(** The loop ends normally only on pieces with one ['='] each. *)
Lemma collect_ok_pieces paramsList params m :
  collect paramsList params = Ok m →
  Forall (λ paramStr, count "=" paramStr = 1%nat) paramsList.
Proof.
  revert params. induction paramsList as [|p ps IH]; intros params H.
  - constructor.
  - simpl in H.
    destruct (split "=" p) as [|a [|b [|c l]]] eqn:E; try discriminate.
    constructor; [exact (split_two _ _ _ _ E) | exact (IH _ H)].
Qed.

(** The only exception the loop raises is the failed unpacking. *)
Lemma collect_err paramsList params e :
  collect paramsList params = Err e → e = ValueError.
Proof.
  revert params. induction paramsList as [|p ps IH]; intros params H;
    simpl in H; [discriminate|].
  destruct (split "=" p) as [|a [|b [|c l]]]; try (now inversion H).
  exact (IH _ H).
Qed.

Lemma collect_bad_piece paramsList params :
  Exists (λ paramStr, count "=" paramStr ≠ 1%nat) paramsList →
  collect paramsList params = Err ValueError.
Proof.
  intros H. destruct (collect paramsList params) as [m|e] eqn:E.
  - apply collect_ok_pieces in E.
    apply Exists_exists in H as (p & Hin & Hp).
    rewrite Forall_forall in E. now apply E in Hin.
  - now rewrite (collect_err _ _ _ E).
Qed.

(** And on such pieces it does end normally. *)
Lemma collect_good_pieces paramsList params :
  Forall (λ paramStr, count "=" paramStr = 1%nat) paramsList →
  ∃ m, collect paramsList params = Ok m.
Proof.
  intros H. revert params.
  induction H as [|p ps Hp _ IH]; intros params; simpl.
  - now exists params.
  - destruct (split_two_inv _ _ Hp) as (a & b & ->). apply IH.
Qed.

Lemma getParamsFromUrl_err url e :
  _getParamsFromUrl url = Err e → e = IndexError ∨ e = ValueError.
Proof.
  unfold _getParamsFromUrl, fragment.
  destruct (split "#" url !! 1%nat); intros H.
  - right. exact (collect_err _ _ _ H).
  - left. now inversion H.
Qed.

(** C3. The parser maps [https://a/b#access_token=T1&token_type=bearer] to
    the dict with [access_token] at [T1] and [token_type] at [bearer], and
    nothing else; on every URL without a ['#'] it returns no dict but
    raises: [url.split('#')] has one element and the subscript [[1]] is out
    of range ([IndexError], the malformed-redirect failure). *)
Theorem getParamsFromUrl_fragment :
  _getParamsFromUrl "https://a/b#access_token=T1&token_type=bearer"
    = Ok {[ "access_token" := "T1"; "token_type" := "bearer" ]}
  ∧ ∀ url, contains "#" url = false → _getParamsFromUrl url = Err IndexError.
Proof.
  split.
  - vm_compute. reflexivity.
  - intros url H. unfold _getParamsFromUrl, fragment.
    now rewrite (split_absent _ _ H).
Qed.

Lemma getParamsFromUrl_fragment_witness :
  contains "#" "https://a/b" = false
  ∧ _getParamsFromUrl "https://a/b" = Err IndexError.
Proof.
  split; [reflexivity|].
  apply (proj2 getParamsFromUrl_fragment). reflexivity.
Defined.

(** C9, as the code has it. The parser looks at the text between the first
    and the second ['#'] of the URL, [url.split('#')[1]], and at nothing
    after a second ['#']. It returns a dict only when every ['&']-delimited
    piece of that text has exactly one ['=']: if it returns one, every
    piece has exactly one; and if some piece has none or has two or more,
    the unpacking of [paramStr.split('=')] raises [ValueError] and no dict
    is returned. *)
Theorem getParamsFromUrl_one_equals_per_piece (url : string) :
  (∀ m, _getParamsFromUrl url = Ok m →
     ∃ frag, fragment url = Ok frag
       ∧ Forall (λ piece, count "=" piece = 1%nat) (split "&" frag))
  ∧ (∀ frag, fragment url = Ok frag →
       Exists (λ piece, count "=" piece = 0%nat ∨ (2 ≤ count "=" piece)%nat)
              (split "&" frag) →
       _getParamsFromUrl url = Err ValueError).
Proof.
  unfold _getParamsFromUrl. split.
  - intros m H. destruct (fragment url) as [frag|e]; [|discriminate].
    exists frag. split; [reflexivity|]. exact (collect_ok_pieces _ _ _ H).
  - intros frag -> H. apply collect_bad_piece.
    eapply Exists_impl; [exact H|]. simpl. intros p Hp. lia.
Qed.

Lemma getParamsFromUrl_one_equals_per_piece_witness :
  (∃ frag, fragment "https://a/b#x=1&y=2" = Ok frag
     ∧ Forall (λ piece, count "=" piece = 1%nat) (split "&" frag))
  ∧ _getParamsFromUrl "https://a/b#x&y=1=2" = Err ValueError.
Proof.
  split.
  - apply (proj1 (getParamsFromUrl_one_equals_per_piece "https://a/b#x=1&y=2")
             {[ "x" := "1"; "y" := "2" ]}).
    vm_compute. reflexivity.
  - apply (proj2 (getParamsFromUrl_one_equals_per_piece "https://a/b#x&y=1=2")
             "x&y=1=2").
    + reflexivity.
    + apply Exists_cons_hd. left. reflexivity.
Defined.

(** C9, as stated, fails. The fragment of [https://a/b#x=1#y=2=3] is
    [x=1#y=2=3]: it has no ['&'], so it is one piece, and that piece has
    three ['=']. The parser stops at the second ['#'] and returns the dict
    with [x] at [1]. So it is not true that the parse fails on every URL
    whose fragment has a piece with two or more ['=']. *)
Lemma getParamsFromUrl_ignores_rest_of_fragment :
  Notions.url_fragment "https://a/b#x=1#y=2=3" = Some "x=1#y=2=3"
  ∧ split "&" "x=1#y=2=3" = ["x=1#y=2=3"]
  ∧ count "=" "x=1#y=2=3" = 3%nat
  ∧ _getParamsFromUrl "https://a/b#x=1#y=2=3" = Ok {[ "x" := "1" ]}
  ∧ ¬ (∀ url frag,
         Notions.url_fragment url = Some frag →
         Exists (λ piece, count "=" piece = 0%nat ∨ (2 ≤ count "=" piece)%nat)
                (split "&" frag) →
         ∀ m, _getParamsFromUrl url ≠ Ok m).
Proof.
  assert (H : _getParamsFromUrl "https://a/b#x=1#y=2=3" = Ok {[ "x" := "1" ]})
    by (vm_compute; reflexivity).
  split; [reflexivity|]. split; [reflexivity|]. split; [reflexivity|].
  split; [exact H|].
  intros Hall.
  apply (Hall "https://a/b#x=1#y=2=3" "x=1#y=2=3" eq_refl) with (m := {[ "x" := "1" ]}).
  - apply Exists_cons_hd. right. simpl. lia.
  - exact H.
Qed.

End ParamsFacts.

(** ** The two patterns of the Prepare stage *)

Module ReFacts.
Import PyStr Re Http Auth Fixtures.

(** [re.search] returns the first of the matches, if there is one. *)
Lemma search_head lit close s :
  search lit close s = head (all_matches lit close s).
Proof.
  induction s as [|c s IH]; simpl.
  - now destruct (match_here lit close EmptyString).
  - destruct (match_here lit close (String c s)); simpl; [reflexivity|exact IH].
Qed.

Lemma search_only_match lit close s target :
  (∀ m, m ∈ all_matches lit close s ↔ m = target) →
  search lit close s = Some target.
Proof.
  intros H. rewrite search_head.
  destruct (all_matches lit close s) as [|m l] eqn:E.
  - exfalso. eapply not_elem_of_nil. apply H. reflexivity.
  - simpl. f_equal. apply H. left.
Qed.

(** C7. When [value="abc123"] is the only text the hidden-field pattern
    matches in the body of the Prepare response, and
    [urlPost:'https://x/y'] the only text the assigned-string pattern
    matches, [_prepareMicrosoftLogin] returns the pair of [abc123] and
    [https://x/y], having sent the one GET of the stage. *)
Theorem prepareMicrosoftLogin_fixture (srv : server) (tr : trace)
    (res : response) :
  srv tr prepare_request = Ok res →
  (∀ m, m ∈ all_matches HIDDEN_FIELD_lit dquote (res_text res)
        ↔ m = hidden_field_fixture) →
  (∀ m, m ∈ all_matches JS_ASSIGNED_STRING_lit squote (res_text res)
        ↔ m = url_post_fixture) →
  _prepareMicrosoftLogin srv tr
    = (Ok ("abc123", "https://x/y"), tr ++ [Request prepare_request]).
Proof.
  intros Hres Hhidden Hurl.
  unfold _prepareMicrosoftLogin, bind, send. rewrite Hres.
  unfold search_hidden_field, search_url_post.
  rewrite (search_only_match _ _ _ _ Hhidden).
  rewrite (search_only_match _ _ _ _ Hurl).
  reflexivity.
Qed.

Lemma prepareMicrosoftLogin_fixture_witness :
  _prepareMicrosoftLogin
      (λ _ _, Ok {| res_text := page_fixture; res_url := ""; res_json := Err JSONDecodeError |})
      []
    = (Ok ("abc123", "https://x/y"), [Request prepare_request]).
Proof.
  apply (prepareMicrosoftLogin_fixture _ []
           {| res_text := page_fixture; res_url := ""; res_json := Err JSONDecodeError |}).
  - reflexivity.
  - intros m. change (all_matches HIDDEN_FIELD_lit dquote _)
      with [hidden_field_fixture]. apply list_elem_of_singleton.
  - intros m. change (all_matches JS_ASSIGNED_STRING_lit squote _)
      with [url_post_fixture]. apply list_elem_of_singleton.
Defined.

End ReFacts.

(** ** Traces of computations *)

Module TraceFacts.
Import Py Http Auth Obs.

Section Emits.
Context (P : event → Prop).

Lemma emits_ret {A} (a : A) : emits P (ret a).
Proof. intros tr. exists []. split; [symmetry; apply app_nil_r|constructor]. Qed.

Lemma emits_raise {A} e : emits P (@raise A e).
Proof. intros tr. exists []. split; [symmetry; apply app_nil_r|constructor]. Qed.

Lemma emits_lift {A} (r : result A) : emits P (lift r).
Proof. intros tr. exists []. split; [symmetry; apply app_nil_r|constructor]. Qed.

Lemma emits_emit ev : P ev → emits P (emit ev).
Proof. intros H tr. exists [ev]. split; [reflexivity|]. now constructor. Qed.

Lemma emits_send srv r : P (Request r) → emits P (send srv r).
Proof. intros H tr. exists [Request r]. split; [reflexivity|]. now constructor. Qed.

Lemma emits_bind {A B} (m : M A) (k : A → M B) :
  emits P m → (∀ a, emits P (k a)) → emits P (bind m k).
Proof.
  intros Hm Hk tr. unfold bind.
  destruct (Hm tr) as (evs & E & F).
  destruct (m tr) as [[a|e] tr']; simpl in E; subst tr'.
  - destruct (Hk a (tr ++ evs)) as (evs' & E' & F').
    exists (evs ++ evs'). rewrite E', app_assoc.
    split; [reflexivity|]. now apply Forall_app.
  - now exists evs.
Qed.

Lemma emits_mapM {A B} (f : A → M B) l :
  (∀ x, emits P (f x)) → emits P (mapM f l).
Proof.
  intros Hf. induction l as [|x l IH]; simpl.
  - apply emits_ret.
  - apply emits_bind; [apply Hf|]. intros y.
    apply emits_bind; [exact IH|]. intros ys. apply emits_ret.
Qed.

Lemma emits_forM_ {A} (f : A → M unit) l :
  (∀ x, emits P (f x)) → emits P (forM_ f l).
Proof.
  intros Hf. induction l as [|x l IH]; simpl.
  - apply emits_ret.
  - apply emits_bind; [apply Hf|]. intros _. exact IH.
Qed.

End Emits.

Ltac emits_step :=
  lazymatch goal with
  | |- emits _ (bind _ _) => apply emits_bind; [|intros ?]
  | |- emits _ (ret _) => apply emits_ret
  | |- emits _ (raise _) => apply emits_raise
  | |- emits _ (lift _) => apply emits_lift
  | |- emits _ (print _) => apply emits_emit
  | |- emits _ (send _ _) => apply emits_send
  | |- emits _ (mapM _ _) => apply emits_mapM; intros ?
  | |- emits _ (match ?x with _ => _ end) => destruct x
  end.

End TraceFacts.

(** ** The handshake *)

Module AuthFacts.
Import PyStr Py Http Params Re Auth Obs Fixtures TraceFacts ParamsFacts.

(** The Prepare stage sends its GET and nothing else, whatever comes back. *)
Lemma prepareMicrosoftLogin_trace srv tr :
  snd (_prepareMicrosoftLogin srv tr) = tr ++ [Request prepare_request].
Proof.
  unfold _prepareMicrosoftLogin, bind, send, lift, ret, raise.
  destruct (srv tr prepare_request) as [res|e]; [|reflexivity].
  destruct (search_hidden_field (res_text res)) as [src|]; [|reflexivity].
  destruct (index dquote src); [|reflexivity].
  destruct (search_url_post (res_text res)) as [src'|]; [|reflexivity].
  destruct (index squote src'); reflexivity.
Qed.

Lemma identity_login_error_cases url :
  identity_login_error url
    ∈ [IndexError; ValueError; KeyError (KStr "access_token")].
Proof.
  unfold identity_login_error.
  destruct (_getParamsFromUrl url) as [m|e] eqn:E.
  - right. right. left.
  - destruct (getParamsFromUrl_err _ _ E) as [-> | ->]; [left | right; left].
Qed.

(** The Identity-Login stage on a redirect without [access_token]. *)
Lemma authenticateWithMicrosoft_no_token srv tr urlPost sFTTag c res :
  srv tr (login_request urlPost sFTTag c) = Ok res →
  access_token_of (res_url res) = None →
  _authenticateWithMicrosoft srv urlPost sFTTag c tr
    = (Err (identity_login_error (res_url res)),
       tr ++ [Request (login_request urlPost sFTTag c)]).
Proof.
  intros Hres Hnone.
  unfold _authenticateWithMicrosoft, bind, send, lift. rewrite Hres.
  unfold access_token_of, identity_login_error in *.
  destruct (_getParamsFromUrl (res_url res)) as [m|e]; [|reflexivity].
  now rewrite Hnone.
Qed.

(** C1, as the code has it. When the Prepare stage has gone through and the
    redirect of the login POST carries no [access_token] in its fragment,
    [authenticate] raises and returns no token; the run has sent the GET of
    stage 1 and the POST of stage 2 and no other request, so the broker, the
    token service and the game service are never contacted. The exception
    is the one the failing line raises, with nothing added: [IndexError]
    for a URL without ['#'], [ValueError] for a piece that does not unpack,
    [KeyError] of [access_token] when the key is missing. *)
Theorem authenticate_stops_at_identity_login (py_repr : pyval → string)
    (srv : server) (c : credentials) (tr tr1 : trace)
    (sFTTag urlPost : string) (res : response) :
  _prepareMicrosoftLogin srv tr = (Ok (sFTTag, urlPost), tr1) →
  srv (tr1 ++ [Print (Line "STATUS 200: Successfully prepared for authentication")])
      (login_request urlPost sFTTag c) = Ok res →
  access_token_of (res_url res) = None →
  authenticate py_repr srv c tr
    = (Err (identity_login_error (res_url res)),
       tr ++ [Request prepare_request;
              Print (Line "STATUS 200: Successfully prepared for authentication");
              Request (login_request urlPost sFTTag c)])
  ∧ identity_login_error (res_url res)
      ∈ [IndexError; ValueError; KeyError (KStr "access_token")].
Proof.
  intros Hprep Hres Hnone. split; [|apply identity_login_error_cases].
  pose proof (prepareMicrosoftLogin_trace srv tr) as Htr.
  rewrite Hprep in Htr. simpl in Htr. subst tr1.
  unfold authenticate. unfold bind at 1. rewrite Hprep.
  unfold bind at 1. unfold print, emit.
  unfold bind at 1.
  rewrite (authenticateWithMicrosoft_no_token _ _ _ _ _ _ Hres Hnone).
  now rewrite <- !app_assoc.
Qed.

Lemma authenticate_stops_at_identity_login_witness :
  authenticate repr0 srv_denied creds0 []
    = (Err (KeyError (KStr "access_token")),
       [Request prepare_request;
        Print (Line "STATUS 200: Successfully prepared for authentication");
        Request (login_request "https://x/y" "abc123" creds0)]).
Proof.
  refine (proj1 (authenticate_stops_at_identity_login repr0 srv_denied creds0 [] _
                   "abc123" "https://x/y" (text_response "" denied_redirect)
                   _ _ _));
    vm_compute; reflexivity.
Defined.

(** C1, the part that fails. The exception does not tell the stage: a run
    that stops at stage 2 on a redirect without [access_token] and a run
    that goes through stages 1 to 4 and stops at stage 5, on a login answer
    without [access_token], raise the same [KeyError]. So no reading of the
    exception gives the failing stage (the number of requests sent). *)
Lemma authenticate_error_does_not_identify_stage :
  fst (authenticate repr0 srv_denied creds0 [])
    = Err (KeyError (KStr "access_token"))
  ∧ length (requests_of (snd (authenticate repr0 srv_denied creds0 []))) = 2%nat
  ∧ fst (authenticate repr0 srv_no_service_token creds0 [])
    = Err (KeyError (KStr "access_token"))
  ∧ length (requests_of (snd (authenticate repr0 srv_no_service_token creds0 [])))
    = 5%nat
  ∧ ¬ ∃ stage_of : error → nat,
        ∀ srv c e tr, authenticate repr0 srv c [] = (Err e, tr) →
                      stage_of e = length (requests_of tr).
Proof.
  assert (H2 : authenticate repr0 srv_denied creds0 []
               = (Err (KeyError (KStr "access_token")),
                  snd (authenticate repr0 srv_denied creds0 [])))
    by (vm_compute; reflexivity).
  assert (H5 : authenticate repr0 srv_no_service_token creds0 []
               = (Err (KeyError (KStr "access_token")),
                  snd (authenticate repr0 srv_no_service_token creds0 [])))
    by (vm_compute; reflexivity).
  assert (L2 : length (requests_of (snd (authenticate repr0 srv_denied creds0 [])))
               = 2%nat) by (vm_compute; reflexivity).
  assert (L5 : length (requests_of
                         (snd (authenticate repr0 srv_no_service_token creds0 [])))
               = 5%nat) by (vm_compute; reflexivity).
  repeat split; try (vm_compute; reflexivity).
  intros (stage_of & H).
  pose proof (H _ _ _ _ H2) as E2. pose proof (H _ _ _ _ H5) as E5.
  rewrite L2 in E2. rewrite L5 in E5. congruence.
Qed.

End AuthFacts.

(** ** The player list *)

Module ClientFacts.
Import PyStr Py Http Auth Client Obs Fixtures TraceFacts.

Section WithServer.
Context (json_loads : string → result pyval).
Context (py_repr : pyval → string).
Context (srv : server).

Lemma scan_passed_over target pre rest tr :
  Forall (passed_over target) pre →
  scan json_loads py_repr srv target (pre ++ rest) tr
    = scan json_loads py_repr srv target rest tr.
Proof.
  induction 1 as [|e pre (sid & Hsid & Hne) _ IH]; [reflexivity|].
  simpl. unfold bind at 1, lift at 1. rewrite Hsid, Hne. exact IH.
Qed.

Lemma scan_matching target m post tr :
  matching target m →
  scan json_loads py_repr srv target (m :: post) tr
    = players_of json_loads py_repr srv m tr.
Proof.
  intros (sid & Hsid & Hne). simpl.
  unfold bind at 1, lift at 1. now rewrite Hsid, Hne.
Qed.

(** Up to the loop: one GET, the payload, its [lists] field. *)
Lemma getPlayersList_scan self target tr res payload lists entries :
  srv tr (players_request py_repr self) = Ok res →
  res_json res = Ok payload →
  getitem payload "lists" = Ok lists →
  iter lists = Ok entries →
  getPlayersList json_loads py_repr srv self target tr
    = scan json_loads py_repr srv target entries
           (tr ++ [Request (players_request py_repr self)]).
Proof.
  intros Hres Hjson Hlists Hiter.
  unfold getPlayersList, bind, send, lift.
  now rewrite Hres, Hjson, Hlists, Hiter.
Qed.

Lemma players_of_emits (P : event → Prop) serverActivity :
  (∀ uid, P (Request (username_request py_repr uid))) →
  emits P (players_of json_loads py_repr srv serverActivity).
Proof.
  intros HP. unfold players_of, getPlayerName, getUsername.
  repeat (emits_step; auto).
Qed.

Lemma scan_emits (P : event → Prop) target entries :
  (∀ uid, P (Request (username_request py_repr uid))) →
  emits P (scan json_loads py_repr srv target entries).
Proof.
  intros HP. induction entries as [|e entries IH]; simpl.
  - apply emits_ret.
  - apply emits_bind; [apply emits_lift|]. intros sid.
    destruct (ne_int sid target); [exact IH|now apply players_of_emits].
Qed.

Lemma getPlayersList_emits (P : event → Prop) self target :
  P (Request (players_request py_repr self)) →
  (∀ uid, P (Request (username_request py_repr uid))) →
  emits P (getPlayersList json_loads py_repr srv self target).
Proof.
  intros H1 H2. unfold getPlayersList.
  repeat (emits_step; auto). now apply scan_emits.
Qed.

(** C4. When the payload of the player-list answer has a [lists] field whose
    entries all carry a [serverId] and none of these equals
    [targetServerId], [getPlayersList] returns the empty list and raises
    nothing, having sent its one GET. *)
Theorem getPlayersList_no_match (self : client) (targetServerId : Z)
    (tr : trace) (res : response) (payload lists : pyval)
    (entries : list pyval) :
  srv tr (players_request py_repr self) = Ok res →
  res_json res = Ok payload →
  getitem payload "lists" = Ok lists →
  iter lists = Ok entries →
  Forall (passed_over targetServerId) entries →
  getPlayersList json_loads py_repr srv self targetServerId tr
    = (Ok [], tr ++ [Request (players_request py_repr self)]).
Proof.
  intros Hres Hjson Hlists Hiter Hall.
  rewrite (getPlayersList_scan _ _ _ _ _ _ _ Hres Hjson Hlists Hiter).
  rewrite <- (app_nil_r entries).
  now rewrite (scan_passed_over _ _ _ _ Hall).
Qed.

(** C10. When the entries of the answer are some entries that do not match,
    then an entry [m] that does, then anything at all, [getPlayersList]
    returns what the player list of [m] gives, and does what resolving that
    list does: the entries after [m], matching or not, well formed or not,
    have no part in the result or in the requests sent. *)
Theorem getPlayersList_first_match (self : client) (targetServerId : Z)
    (tr : trace) (res : response) (payload lists : pyval)
    (pre post : list pyval) (m : pyval) :
  srv tr (players_request py_repr self) = Ok res →
  res_json res = Ok payload →
  getitem payload "lists" = Ok lists →
  iter lists = Ok (pre ++ m :: post) →
  Forall (passed_over targetServerId) pre →
  matching targetServerId m →
  getPlayersList json_loads py_repr srv self targetServerId tr
    = players_of json_loads py_repr srv m
                 (tr ++ [Request (players_request py_repr self)]).
Proof.
  intros Hres Hjson Hlists Hiter Hpre Hm.
  rewrite (getPlayersList_scan _ _ _ _ _ _ _ Hres Hjson Hlists Hiter).
  rewrite (scan_passed_over _ _ _ _ Hpre).
  now apply scan_matching.
Qed.

End WithServer.

Lemma getPlayersList_no_match_witness :
  getPlayersList loads0 repr0 srv_no_match self0 7 []
    = (Ok [], [Request (players_request repr0 self0)]).
Proof.
  refine (getPlayersList_no_match loads0 repr0 srv_no_match self0 7 []
            (json_response players_url answer_no_match)
            _ _ _ eq_refl eq_refl eq_refl eq_refl _).
  repeat constructor.
  - exists (PInt 3). split; reflexivity.
  - exists (PInt 4). split; reflexivity.
Defined.

Lemma getPlayersList_first_match_witness :
  getPlayersList loads0 repr0 srv_two_matches self0 7 []
    = (Ok ["Alex"], [Request (players_request repr0 self0);
                     Request (username_request repr0 (PStr "u2"))]).
Proof.
  rewrite (getPlayersList_first_match loads0 repr0 srv_two_matches self0 7 []
             (json_response players_url (lists_payload entries_two_matches))
             (lists_payload entries_two_matches)
             (PList entries_two_matches)
             [entry 3 (one_player "u1")]
             [entry 7 (one_player "u1"); PStr "not an entry"]
             (entry 7 (one_player "u2"))
             eq_refl eq_refl eq_refl eq_refl).
  - reflexivity.
  - repeat constructor. exists (PInt 3). split; reflexivity.
  - exists (PInt 7). split; reflexivity.
Defined.

End ClientFacts.

(** ** The poller *)

Module WebhookFacts.
Import PyStr Py Http Auth Client Webhook Obs Fixtures TraceFacts ClientFacts.

Section WithServer.
Context (json_loads : string → result pyval).
Context (py_repr : pyval → string).
Context (srv : server).
Context (cfg : config).

Local Abbreviation getPlayers c := (getPlayersList json_loads py_repr srv c (SERVER_ID cfg)).

Lemma authenticate_emits (P : event → Prop) c :
  P (Request prepare_request) →
  (∀ u t, P (Request (login_request u t c))) →
  (∀ t, P (Request (xbox_live_request t))) →
  (∀ t, P (Request (xsts_request t))) →
  (∀ t h, P (Request (minecraft_request py_repr t h))) →
  (∀ s, P (Print (Line s))) →
  emits P (authenticate py_repr srv c).
Proof.
  intros H1 H2 H3 H4 H5 H6.
  unfold authenticate, _prepareMicrosoftLogin, _authenticateWithMicrosoft,
    _authenticateWithXboxLive, _getXstsToken, _authenticateWithMinecraft.
  repeat (emits_step; auto).
Qed.

Lemma init_emits (P : event → Prop) u e p :
  P (Request prepare_request) →
  (∀ a t, P (Request (login_request a t {| email := e; password := p |}))) →
  (∀ t, P (Request (xbox_live_request t))) →
  (∀ t, P (Request (xsts_request t))) →
  (∀ t h, P (Request (minecraft_request py_repr t h))) →
  (∀ s, P (Print (Line s))) →
  P (Request (uid_request u)) →
  emits P (__init__ py_repr srv u e p).
Proof.
  intros H1 H2 H3 H4 H5 H6 H7. unfold __init__, _authenticate, getUid.
  apply emits_bind.
  - apply emits_bind; [now apply authenticate_emits|]. intros tok.
    repeat (emits_step; auto).
  - intros [tok uid]. apply emits_ret.
Qed.

(** What [__init__] stores: the token of the handshake, the id the
    directory gave for the profile name, and the profile name. *)
Lemma init_fields u e p tr c tr' :
  __init__ py_repr srv u e p tr = (Ok c, tr') →
  ∃ tr0, authenticate py_repr srv {| email := e; password := p |} tr
           = (Ok (_accessToken c), tr0)
         ∧ getUid srv u tr0 = (Ok (_uid c), tr')
         ∧ _username c = u.
Proof.
  unfold __init__, _authenticate. unfold bind at 1 2.
  destruct (authenticate py_repr srv _ tr) as [[tok|err] tr0]; [|discriminate].
  unfold bind at 1.
  destruct (getUid srv u tr0) as [[uid|err] tr1] eqn:Euid; [|discriminate].
  unfold ret. intros H. inversion H; subst. exists tr0. auto.
Qed.

Section Loop.
Context (set_order : gset string → list string).

Local Abbreviation loop := (Webhook.loop json_loads py_repr set_order srv cfg).
Local Abbreviation main := (Webhook.main json_loads py_repr set_order srv cfg).

Lemma loop_emits (P : event → Prop) c :
  P (Request (players_request py_repr c)) →
  (∀ uid, P (Request (username_request py_repr uid))) →
  (∀ name, P (Request (notification cfg name))) →
  (∀ a b d, P (Print (Sets a b d))) →
  P (Sleep 60) →
  ∀ cycles prev tr,
    ∃ evs, snd (loop cycles c prev tr) = tr ++ evs ∧ Forall P evs.
Proof.
  intros H1 H2 H3 H4 H5. induction cycles as [|n IH]; intros prev tr; simpl.
  - exists []. split; [symmetry; apply app_nil_r|constructor].
  - destruct (getPlayersList_emits json_loads py_repr srv P c (SERVER_ID cfg)
                H1 H2 tr) as (evs1 & E1 & F1).
    destruct (getPlayers c tr) as [[names|e] tr1]; simpl in E1; subst tr1.
    + set (cur := list_to_set names : gset string).
      assert (Hn : emits P (forM_ (notify srv cfg) (set_order (cur ∖ prev)))).
      { apply emits_forM_. intros x. unfold notify.
        repeat (emits_step; auto). }
      destruct (Hn ((tr ++ evs1) ++ [Print (Sets prev cur (cur ∖ prev))]))
        as (evs2 & E2 & F2).
      destruct (forM_ _ _ _) as [[u|e] tr3]; simpl in E2; subst tr3.
      * destruct (IH cur (((tr ++ evs1) ++ [Print (Sets prev cur (cur ∖ prev))])
                            ++ evs2 ++ [Sleep 60])) as (evs3 & E3 & F3).
        rewrite <- !app_assoc in *. rewrite E3.
        eexists. split; [reflexivity|].
        repeat (apply Forall_app; split); auto.
      * simpl. rewrite <- !app_assoc. eexists. split; [reflexivity|].
        repeat (apply Forall_app; split); auto.
    + simpl. now exists evs1.
Qed.

(** What the notification loop leaves on the trace: the POSTs for the names
    it reached, in the order of the visit. *)
Lemma forM_notify_trace names tr :
  ∃ k, snd (forM_ (notify srv cfg) names tr)
       = tr ++ map (λ name, Request (notification cfg name)) (take k names).
Proof.
  revert tr. induction names as [|x names IH]; intros tr; simpl.
  - exists 0%nat. symmetry. apply app_nil_r.
  - unfold bind at 1. unfold notify at 1. unfold bind at 1, send at 1.
    destruct (srv tr (notification cfg x)) as [res|e]; simpl.
    + destruct (IH (tr ++ [Request (notification cfg x)])) as (k & E).
      exists (S k). rewrite E. simpl. now rewrite <- app_assoc.
    + now exists 1%nat.
Qed.

(** One cycle whose query went through: the value of [prevPlayers] after
    it, and what it added to the trace. *)
Lemma loop_cycle_ok c prev tr names tr1 :
  getPlayers c tr = (Ok names, tr1) →
  prevPlayers_of (fst (loop 1 c prev tr)) = Some (list_to_set names)
  ∧ ∃ k rest,
      snd (loop 1 c prev tr)
      = tr1 ++ Print (Sets prev (list_to_set names) (list_to_set names ∖ prev))
            :: map (λ name, Request (notification cfg name))
                   (take k (set_order (list_to_set names ∖ prev)))
            ++ rest
      ∧ (rest = [] ∨ rest = [Sleep 60]).
Proof.
  intros Hq. simpl. rewrite Hq.
  set (cur := list_to_set names : gset string).
  destruct (forM_notify_trace (set_order (cur ∖ prev))
              (tr1 ++ [Print (Sets prev cur (cur ∖ prev))])) as (k & E).
  destruct (forM_ _ _ _) as [[u|e] tr3]; simpl in E; subst tr3; simpl.
  - split; [reflexivity|]. exists k, [Sleep 60].
    rewrite <- !app_assoc. auto.
  - split; [reflexivity|]. exists k, [].
    rewrite <- !app_assoc, app_nil_r. auto.
Qed.

Lemma query_not_notification c :
  emits (λ ev, ¬ is_notification cfg ev) (getPlayers c).
Proof.
  apply getPlayersList_emits.
  - intros [name H]. discriminate H.
  - intros uid [name H]. discriminate H.
Qed.

Lemma init_not_notification u e p :
  emits (λ ev, ¬ is_notification cfg ev) (__init__ py_repr srv u e p).
Proof.
  apply init_emits; intros; intros [name H]; discriminate H.
Qed.

(** C2, as the code has it. [main] has no handler around the query: when the
    query of a cycle raises, the exception leaves the loop and the process
    ends there, however many cycles were still to come. [prevPlayers] has
    the value it had before the cycle when that happens, and the cycle has
    sent no notification. *)
Theorem loop_query_failure (cycles : nat) (c : client)
    (prev : gset string) (tr tr1 : trace) (e : error) :
  getPlayers c tr = (Err e, tr1) →
  loop (S cycles) c prev tr = (Raised e prev, tr1)
  ∧ ∃ evs, tr1 = tr ++ evs ∧ Forall (λ ev, ¬ is_notification cfg ev) evs.
Proof.
  intros Hq. split.
  - simpl. now rewrite Hq.
  - destruct (query_not_notification c tr) as (evs & E & F).
    rewrite Hq in E. now exists evs.
Qed.

(** C5. When the client is built and the first query returns a list of
    names, empty or not, nothing sent so far is a notification, and [main]
    goes on as the loop started with [prevPlayers] at the set of these
    names: the next cycle that gets an answer prints and notifies the
    difference of its names with that set. *)
Theorem first_query_is_baseline (cycles : nat) (c : client)
    (tr1 tr2 : trace) (names : list string) :
  __init__ py_repr srv (USERNAME cfg) (EMAIL cfg) (PASSWORD cfg) [] = (Ok c, tr1) →
  getPlayers c tr1 = (Ok names, tr2) →
  Forall (λ ev, ¬ is_notification cfg ev) tr2
  ∧ main cycles = loop cycles c (list_to_set names) tr2
  ∧ ∀ names' tr3, getPlayers c tr2 = (Ok names', tr3) →
      ∃ evs, snd (main 1)
             = tr3 ++ Print (Sets (list_to_set names) (list_to_set names')
                                  (list_to_set names' ∖ list_to_set names))
                   :: evs.
Proof.
  intros Hinit Hq.
  assert (Hmain : ∀ n, main n = loop n c (list_to_set names) tr2).
  { intros n. unfold Webhook.main, startup. unfold bind at 1. rewrite Hinit.
    unfold bind at 1. now rewrite Hq. }
  split; [|split; [apply Hmain|]].
  - destruct (init_not_notification (USERNAME cfg) (EMAIL cfg) (PASSWORD cfg) [])
      as (evs1 & E1 & F1).
    rewrite Hinit in E1. simpl in E1. subst tr1.
    destruct (query_not_notification c evs1) as (evs2 & E2 & F2).
    rewrite Hq in E2. simpl in E2. subst tr2.
    now apply Forall_app.
  - intros names' tr3 Hq'. rewrite Hmain.
    destruct (loop_cycle_ok c (list_to_set names) tr2 names' tr3 Hq')
      as (_ & k & rest & E & _).
    rewrite E. eauto.
Qed.

(** C8. Once [__init__] has built the client, every GET of the player list
    that the run sends, the seeding one and the one of each cycle, carries a
    [Cookie] header whose value is made of the token the handshake returned,
    the id the directory returned for the profile name, the profile name and
    the tag [version=1.18.2], in the layout
    [sid=token:<token>:<id>;user=<name>;version=1.18.2]. *)
Theorem players_query_cookie (cycles : nat) (c : client) (tr1 : trace) :
  __init__ py_repr srv (USERNAME cfg) (EMAIL cfg) (PASSWORD cfg) [] = (Ok c, tr1) →
  (∃ tr0, authenticate py_repr srv
            {| email := EMAIL cfg; password := PASSWORD cfg |} []
            = (Ok (_accessToken c), tr0)
          ∧ getUid srv (USERNAME cfg) tr0 = (Ok (_uid c), tr1))
  ∧ ∃ evs, snd (main cycles) = tr1 ++ Request (players_request py_repr c) :: evs
      ∧ Forall (λ ev, ∀ r, ev = Request r →
                  req_method r = GET →
                  req_url r = MC_REALMS_DOMAIN +:+ "/activities/liveplayerlist" →
                  header "Cookie" r
                  = Some ("sid=token:" +:+ py_str py_repr (_accessToken c)
                          +:+ ":" +:+ py_str py_repr (_uid c)
                          +:+ ";user=" +:+ USERNAME cfg
                          +:+ ";version=1.18.2"))
               (Request (players_request py_repr c) :: evs).
Proof.
  intros Hinit.
  destruct (init_fields _ _ _ _ _ _ Hinit) as (tr0 & Hauth & Huid & Hname).
  split; [now exists tr0|].
  set (P := λ ev : event, ∀ r, ev = Request r → req_method r = GET →
              req_url r = MC_REALMS_DOMAIN +:+ "/activities/liveplayerlist" →
              header "Cookie" r
              = Some ("sid=token:" +:+ py_str py_repr (_accessToken c)
                      +:+ ":" +:+ py_str py_repr (_uid c)
                      +:+ ";user=" +:+ USERNAME cfg +:+ ";version=1.18.2")).
  assert (P1 : P (Request (players_request py_repr c))).
  { intros r Hr _ _. inversion Hr; subst r.
    unfold header, players_request, cookie. simpl. now rewrite Hname. }
  assert (P2 : ∀ uid, P (Request (username_request py_repr uid))).
  { intros uid r Hr _ Hurl. inversion Hr; subst r. discriminate Hurl. }
  assert (P3 : ∀ name, P (Request (notification cfg name))).
  { intros name r Hr Hm _. inversion Hr; subst r. discriminate Hm. }
  assert (P4 : ∀ a b d, P (Print (Sets a b d))) by (intros a b d r Hr; discriminate Hr).
  assert (P5 : P (Sleep 60)) by (intros r Hr; discriminate Hr).
  unfold Webhook.main, startup. unfold bind at 1. rewrite Hinit.
  unfold bind at 1.
  assert (Hq : ∃ evs, snd (getPlayers c tr1)
                      = tr1 ++ Request (players_request py_repr c) :: evs
                      ∧ Forall P evs).
  { unfold getPlayersList. unfold bind at 1, send at 1.
    destruct (srv tr1 (players_request py_repr c)) as [res|e].
    - assert (E : emits P (bind (lift (res_json res)) (λ resPayload,
                    bind (lift (getitem resPayload "lists")) (λ l,
                    bind (lift (iter l)) (λ entries,
                    scan json_loads py_repr srv (SERVER_ID cfg) entries))))).
      { repeat (emits_step; auto). now apply scan_emits. }
      destruct (E (tr1 ++ [Request (players_request py_repr c)]))
        as (evs & E' & F).
      exists evs. rewrite E'. now rewrite <- app_assoc.
    - exists []. split; [reflexivity|constructor]. }
  destruct Hq as (evs & E & F).
  destruct (getPlayers c tr1) as [[names|e] tr2]; simpl in E; subst tr2;
    unfold ret; cbv beta iota.
  - destruct (loop_emits P c P1 P2 P3 P4 P5 cycles (list_to_set names)
                (tr1 ++ Request (players_request py_repr c) :: evs))
      as (evs' & E' & F').
    exists (evs ++ evs'). rewrite E'. rewrite <- app_assoc. simpl.
    split; [reflexivity|]. constructor; [exact P1|]. now apply Forall_app.
  - exists evs. split; [reflexivity|]. now constructor.
Qed.

End Loop.

(** C6. In a cycle whose query returns a list of names, with [current] the
    set of these names, what is printed as newly online and notified is
    [current] minus [previous], and [prevPlayers] is [current] afterwards,
    whatever the order in which the set of newly online players is visited
    and whether or not a notification raises. With [previous] and [current]
    both [{A, B}] the difference is empty; with [previous] at [{A}] and
    [current] at [{A, B, C}] it is [{B, C}]. *)
Theorem poll_cycle_difference (c : client) (prev : gset string)
    (tr tr1 : trace) (names : list string) :
  getPlayers c tr = (Ok names, tr1) →
  (∀ order,
     prevPlayers_of (fst (Webhook.loop json_loads py_repr order srv cfg 1 c prev tr))
       = Some (list_to_set names)
     ∧ ∃ k rest,
         snd (Webhook.loop json_loads py_repr order srv cfg 1 c prev tr)
         = tr1 ++ Print (Sets prev (list_to_set names) (list_to_set names ∖ prev))
               :: map (λ name, Request (notification cfg name))
                      (take k (order (list_to_set names ∖ prev)))
               ++ rest
         ∧ (rest = [] ∨ rest = [Sleep 60]))
  ∧ (∀ order1 order2,
       prevPlayers_of (fst (Webhook.loop json_loads py_repr order1 srv cfg 1 c prev tr))
       = prevPlayers_of (fst (Webhook.loop json_loads py_repr order2 srv cfg 1 c prev tr)))
  ∧ (list_to_set ["A"; "B"] : gset string) ∖ list_to_set ["A"; "B"] = ∅
  ∧ (list_to_set ["A"; "B"; "C"] : gset string) ∖ list_to_set ["A"]
    = list_to_set ["B"; "C"].
Proof.
  intros Hq. split; [|split; [|split]].
  - intros order. exact (loop_cycle_ok order c prev tr names tr1 Hq).
  - intros order1 order2.
    rewrite (proj1 (loop_cycle_ok order1 c prev tr names tr1 Hq)).
    now rewrite (proj1 (loop_cycle_ok order2 c prev tr names tr1 Hq)).
  - set_solver.
  - now vm_compute.
Qed.

End WithServer.

Lemma loop_query_failure_witness :
  loop loads0 repr0 elements srv_outage cfg0 3 self0 (list_to_set ["Steve"])
       [Request (players_request repr0 self0)]
    = (Raised RequestException (list_to_set ["Steve"]),
       [Request (players_request repr0 self0);
        Request (players_request repr0 self0)]).
Proof.
  refine (proj1 (loop_query_failure loads0 repr0 srv_outage cfg0 elements 2 self0
                   (list_to_set ["Steve"])
                   [Request (players_request repr0 self0)] _ RequestException _)).
  vm_compute. reflexivity.
Defined.

(** C2, as stated, fails. A run that is given three cycles: the client is
    built, the first query finds Steve, and the query of the first cycle
    gets no answer. The run ends in that cycle with the exception of the
    query; two queries were sent in all, the seeding one and the failed one,
    so no further cycle took place. *)
Lemma poller_stops_on_failed_query :
  fst (main loads0 repr0 elements srv_outage cfg0 3)
    = Raised RequestException (list_to_set ["Steve"])
  ∧ count_queries (snd (main loads0 repr0 elements srv_outage cfg0 3)) = 2%nat
  ∧ ¬ ∃ prevPlayers,
        fst (main loads0 repr0 elements srv_outage cfg0 3) = Running prevPlayers.
Proof.
  assert (H : fst (main loads0 repr0 elements srv_outage cfg0 3)
              = Raised RequestException (list_to_set ["Steve"]))
    by now vm_compute.
  split; [exact H|]. split; [now vm_compute|].
  intros [p Hp]. rewrite H in Hp. discriminate Hp.
Qed.

Lemma first_query_is_baseline_witness :
  Forall (λ ev, ¬ is_notification cfg0 ev)
         (snd (startup loads0 repr0 srv_arrivals cfg0 []))
  ∧ fst (startup loads0 repr0 srv_arrivals cfg0 [])
    = Ok (self0, list_to_set ["Steve"])
  ∧ main loads0 repr0 elements srv_arrivals cfg0 1
    = loop loads0 repr0 elements srv_arrivals cfg0 1 self0
           (list_to_set ["Steve"])
           (snd (startup loads0 repr0 srv_arrivals cfg0 [])).
Proof.
  assert (Hi : __init__ repr0 srv_arrivals (USERNAME cfg0) (EMAIL cfg0)
                        (PASSWORD cfg0) []
               = (Ok self0, snd (__init__ repr0 srv_arrivals "owner"
                                          "me@example.org" "pw" [])))
    by now vm_compute.
  assert (Hq : getPlayersList loads0 repr0 srv_arrivals self0 (SERVER_ID cfg0)
                 (snd (__init__ repr0 srv_arrivals "owner" "me@example.org" "pw" []))
               = (Ok ["Steve"], snd (startup loads0 repr0 srv_arrivals cfg0 [])))
    by now vm_compute.
  destruct (first_query_is_baseline loads0 repr0 srv_arrivals cfg0 elements 1
              self0 _ _ _ Hi Hq) as (H1 & H2 & _).
  split; [exact H1|]. split; [now vm_compute|exact H2].
Defined.

Lemma players_query_cookie_witness :
  ∃ evs,
    snd (main loads0 repr0 elements srv_arrivals cfg0 2)
    = snd (__init__ repr0 srv_arrivals "owner" "me@example.org" "pw" [])
      ++ Request (players_request repr0 self0) :: evs
    ∧ header "Cookie" (players_request repr0 self0)
      = Some "sid=token:mc-token:u0;user=owner;version=1.18.2".
Proof.
  assert (Hi : __init__ repr0 srv_arrivals (USERNAME cfg0) (EMAIL cfg0)
                        (PASSWORD cfg0) []
               = (Ok self0, snd (__init__ repr0 srv_arrivals "owner"
                                          "me@example.org" "pw" [])))
    by now vm_compute.
  destruct (players_query_cookie loads0 repr0 srv_arrivals cfg0 elements 2
              self0 _ Hi) as (_ & evs & E & F).
  exists evs. split; [exact E|].
  inversion F as [|ev l Hhead Htail]; subst.
  exact (Hhead _ eq_refl eq_refl eq_refl).
Defined.

Lemma poll_cycle_difference_witness :
  prevPlayers_of
    (fst (loop loads0 repr0 elements srv_arrivals cfg0 1 self0
               (list_to_set ["Steve"]) [Request (players_request repr0 self0)]))
    = Some (list_to_set ["Alex"]).
Proof.
  refine (proj1 (proj1 (poll_cycle_difference loads0 repr0 srv_arrivals cfg0 self0
                          (list_to_set ["Steve"])
                          [Request (players_request repr0 self0)] _ ["Alex"] _)
                       elements)).
  vm_compute. reflexivity.
Defined.

End WebhookFacts.

(** * Further properties of the code *)

(** ** Splitting, joining and the parameters of the fragment *)

Module ParamsMore.
Import PyStr Params Notions ParamsFacts.

Lemma contains_cons sep c s :
  contains sep (String c s) = false ↔
  Ascii.eqb c sep = false ∧ contains sep s = false.
Proof.
  unfold contains. simpl. destruct (Ascii.eqb c sep); simpl.
  - split; [discriminate|intros [H _]; discriminate H].
  - split; [auto|intros [_ H]; exact H].
Qed.

Lemma contains_app sep a b :
  contains sep (a +:+ b) = false ↔
  contains sep a = false ∧ contains sep b = false.
Proof.
  induction a as [|c a IH].
  - simpl. split; [auto|intros [_ H]; exact H].
  - change (String c a +:+ b) with (String c (a +:+ b)).
    rewrite !contains_cons, IH. tauto.
Qed.

(** Joining the pieces of a split gives the text back. *)
Lemma join_split sep s : join sep (split sep s) = s.
Proof.
  induction s as [|c s IH]; [reflexivity|]. simpl.
  destruct (Ascii.eqb c sep) eqn:E.
  - apply Ascii.eqb_eq in E. subst c.
    destruct (split sep s) as [|p ps] eqn:Es.
    + pose proof (split_length sep s) as L. rewrite Es in L. discriminate L.
    + simpl in *. rewrite IH. reflexivity.
  - destruct (split sep s) as [|p ps] eqn:Es.
    + pose proof (split_length sep s) as L. rewrite Es in L. discriminate L.
    + destruct ps; simpl in *; rewrite <- IH; reflexivity.
Qed.

(** No piece of a split holds the separator. *)
Lemma split_pieces_clean sep s :
  Forall (λ piece, contains sep piece = false) (split sep s).
Proof.
  induction s as [|c s IH]; simpl.
  - repeat constructor.
  - destruct (Ascii.eqb c sep) eqn:E.
    + constructor; [reflexivity|exact IH].
    + destruct (split sep s) as [|p ps].
      * repeat constructor. apply contains_cons. auto.
      * inversion IH; subst. constructor; [|assumption].
        apply contains_cons. auto.
Qed.

(** Splitting a text at its first separator. *)
Lemma split_app_sep sep a b :
  contains sep a = false →
  split sep (a +:+ String sep b) = a :: split sep b.
Proof.
  induction a as [|c a IH]; intros H; simpl.
  - now rewrite Ascii.eqb_refl.
  - apply contains_cons in H as [Hc Ha]. rewrite Hc, (IH Ha). reflexivity.
Qed.

Lemma split_key_val k v :
  contains "=" k = false → contains "=" v = false →
  split "=" (param_text k v) = [k; v].
Proof.
  intros Hk Hv. unfold param_text.
  rewrite (split_app_sep _ _ _ Hk). now rewrite (split_absent _ _ Hv).
Qed.

Lemma split_key_val_inv piece k v :
  split "=" piece = [k; v] →
  piece = param_text k v ∧ contains "=" k = false ∧ contains "=" v = false.
Proof.
  intros H. pose proof (join_split "=" piece) as J.
  pose proof (split_pieces_clean "=" piece) as C.
  rewrite H in J, C. simpl in J.
  inversion C as [|? ? Hk C']; subst. inversion C' as [|? ? Hv _]; subst.
  now split.
Qed.

(** What the loop has put in the dict when it ends: the entries it started
    with, overwritten by the pieces in their order. *)
Lemma collect_lookup_sound paramsList params m k v :
  collect paramsList params = Ok m →
  m !! k = Some v →
  params !! k = Some v ∨ ∃ piece, piece ∈ paramsList ∧ split "=" piece = [k; v].
Proof.
  revert params. induction paramsList as [|p ps IH]; intros params H Hm;
    simpl in H.
  - inversion H; subst. now left.
  - destruct (split "=" p) as [|a [|b [|c l]]] eqn:E; try discriminate.
    destruct (IH _ H Hm) as [Hi | (piece & Hin & Hp)].
    + destruct (decide (a = k)) as [->|Hne].
      * rewrite lookup_insert_eq in Hi. inversion Hi; subst.
        right. exists p. split; [left|exact E].
      * rewrite lookup_insert_ne in Hi by exact Hne. now left.
    + right. exists piece. split; [now right|exact Hp].
Qed.

Lemma collect_lookup_kept paramsList params m k :
  collect paramsList params = Ok m →
  is_Some (params !! k) → is_Some (m !! k).
Proof.
  revert params. induction paramsList as [|p ps IH]; intros params H Hk;
    simpl in H.
  - now inversion H; subst.
  - destruct (split "=" p) as [|a [|b [|c l]]] eqn:E; try discriminate.
    apply (IH _ H). rewrite lookup_insert. case_decide; [eauto|exact Hk].
Qed.

Lemma collect_lookup_complete paramsList params m piece k v :
  collect paramsList params = Ok m →
  piece ∈ paramsList → split "=" piece = [k; v] →
  is_Some (m !! k).
Proof.
  revert params. induction paramsList as [|p ps IH]; intros params H Hin Hp;
    simpl in H.
  - inversion Hin.
  - destruct (split "=" p) as [|a [|b [|c l]]] eqn:E; try discriminate.
    apply elem_of_cons in Hin as [->|Hin].
    + rewrite Hp in E. inversion E; subst.
      apply (collect_lookup_kept _ _ _ _ H). rewrite lookup_insert_eq. eauto.
    + exact (IH _ H Hin Hp).
Qed.

(** A key keeps the value of the last piece that sets it. *)
Lemma collect_last_wins before after params m k v :
  collect (before ++ param_text k v :: after) params = Ok m →
  contains "=" k = false → contains "=" v = false →
  (∀ v', param_text k v' ∉ after) →
  m !! k = Some v.
Proof.
  revert params. induction before as [|p ps IH]; intros params H Hk Hv Hafter;
    simpl in H.
  - rewrite (split_key_val _ _ Hk Hv) in H.
    destruct (m !! k) as [w|] eqn:Em.
    + destruct (collect_lookup_sound _ _ _ _ _ H Em) as [Hi|(piece & Hin & Hp)].
      * rewrite lookup_insert_eq in Hi. exact (eq_sym Hi).
      * apply split_key_val_inv in Hp as (-> & _ & _).
        now apply Hafter in Hin.
    + pose proof (collect_lookup_kept _ _ _ k H) as Hs.
      rewrite lookup_insert_eq in Hs. destruct Hs as [w Hw]; [eauto|].
      congruence.
  - destruct (split "=" p) as [|a [|b [|c l]]] eqn:E; try discriminate.
    exact (IH _ H Hk Hv Hafter).
Qed.

Lemma count_app sep a b : count sep (a +:+ b) = (count sep a + count sep b)%nat.
Proof.
  induction a as [|c a IH]; [reflexivity|].
  change (String c a +:+ b) with (String c (a +:+ b)). simpl.
  rewrite IH. lia.
Qed.

Lemma contains_count sep s : contains sep s = false ↔ count sep s = 0%nat.
Proof.
  unfold contains. rewrite negb_false_iff. apply Nat.eqb_eq.
Qed.

Lemma param_text_clean k v :
  count "=" (param_text k v) = 1%nat →
  contains "=" k = false ∧ contains "=" v = false.
Proof.
  unfold param_text. rewrite count_app. simpl.
  rewrite !contains_count. lia.
Qed.

(** X1. When the parser returns a dict, its entries are the pieces of the
    fragment and nothing else: every entry [k], [v] is a piece [k=v] of the
    fragment, neither [k] nor [v] holds a ['='], a ['&'] or a ['#'], and
    every piece [k=v] has its key in the dict. *)
Theorem getParamsFromUrl_entries (url : string) (m : gmap string string) :
  _getParamsFromUrl url = Ok m →
  ∃ frag, fragment url = Ok frag
    ∧ (∀ k v, m !! k = Some v →
         param_text k v ∈ split "&" frag
         ∧ Forall (λ sep, contains sep k = false ∧ contains sep v = false)
                  ["="%char; "&"%char; "#"%char])
    ∧ (∀ k v, param_text k v ∈ split "&" frag → is_Some (m !! k)).
Proof.
  unfold _getParamsFromUrl. intros H.
  destruct (fragment url) as [frag|e] eqn:Ef; [|discriminate].
  exists frag. split; [reflexivity|]. split.
  - intros k v Hm.
    destruct (collect_lookup_sound _ _ _ _ _ H Hm) as [Hi|(piece & Hin & Hp)].
    + rewrite lookup_empty in Hi. discriminate Hi.
    + apply split_key_val_inv in Hp as (-> & Hk & Hv).
      split; [exact Hin|].
      assert (Hamp : contains "&" (param_text k v) = false).
      { pose proof (split_pieces_clean "&" frag) as C.
        rewrite Forall_forall in C. exact (C _ Hin). }
      assert (Hhash : contains "#" (param_text k v) = false).
      { assert (Hf : contains "#" frag = false).
        { unfold fragment in Ef.
          destruct (split "#" url !! 1%nat) as [f|] eqn:El; [|discriminate].
          inversion Ef; subst f.
          pose proof (split_pieces_clean "#" url) as C.
          rewrite Forall_forall in C. apply C.
          apply list_elem_of_lookup. eauto. }
        rewrite <- (join_split "&" frag) in Hf.
        revert Hf Hin. generalize (split "&" frag). intros l.
        induction l as [|p ps IH]; intros Hf Hin; [inversion Hin|].
        apply elem_of_cons in Hin as [<-|Hin].
        - destruct ps; simpl in Hf; [exact Hf|].
          apply contains_app in Hf as [Hf _]. exact Hf.
        - destruct ps as [|q qs]; [inversion Hin|].
          change (join "&" (p :: q :: qs))
            with (p +:+ String "&"%char (join "&" (q :: qs))) in Hf.
          apply contains_app in Hf as [_ Hf].
          apply contains_cons in Hf as [_ Hf]. exact (IH Hf Hin). }
      unfold param_text in Hamp, Hhash.
      apply contains_app in Hamp as [Ha1 Ha2].
      apply contains_cons in Ha2 as [_ Ha2].
      apply contains_app in Hhash as [Hh1 Hh2].
      apply contains_cons in Hh2 as [_ Hh2].
      repeat constructor; assumption.
  - intros k v Hin.
    pose proof (collect_ok_pieces _ _ _ H) as Hall.
    rewrite Forall_forall in Hall.
    destruct (param_text_clean k v (Hall _ Hin)) as [Hk Hv].
    exact (collect_lookup_complete _ _ _ _ _ _ H Hin (split_key_val _ _ Hk Hv)).
Qed.

Lemma getParamsFromUrl_entries_witness :
  ∃ frag, fragment "https://a/b#x=1&y=2" = Ok frag
    ∧ (∀ k v, ({[ "x" := "1"; "y" := "2" ]} : gmap string string) !! k = Some v →
         param_text k v ∈ split "&" frag
         ∧ Forall (λ sep, contains sep k = false ∧ contains sep v = false)
                  ["="%char; "&"%char; "#"%char])
    ∧ (∀ k v, param_text k v ∈ split "&" frag →
         is_Some (({[ "x" := "1"; "y" := "2" ]} : gmap string string) !! k)).
Proof.
  apply (getParamsFromUrl_entries "https://a/b#x=1&y=2").
  vm_compute. reflexivity.
Defined.

(** X2. A key that several pieces set keeps the value of the last of them. *)
Theorem getParamsFromUrl_last_wins (url frag : string)
    (before after : list string) (k v : string) (m : gmap string string) :
  fragment url = Ok frag →
  split "&" frag = before ++ param_text k v :: after →
  (∀ v', param_text k v' ∉ after) →
  _getParamsFromUrl url = Ok m →
  m !! k = Some v.
Proof.
  unfold _getParamsFromUrl. intros Hf Hs Hafter H. rewrite Hf, Hs in H.
  pose proof (collect_ok_pieces _ _ _ H) as Hall.
  rewrite Forall_forall in Hall.
  destruct (param_text_clean k v) as [Hk Hv].
  { apply Hall. apply elem_of_app. right. left. }
  exact (collect_last_wins _ _ _ _ _ _ H Hk Hv Hafter).
Qed.

Lemma getParamsFromUrl_last_wins_witness :
  ({[ "a" := "3"; "b" := "2" ]} : gmap string string) !! "a" = Some "3".
Proof.
  apply (getParamsFromUrl_last_wins "https://a/b#a=1&b=2&a=3" "a=1&b=2&a=3"
           ["a=1"; "b=2"] [] "a" "3").
  - reflexivity.
  - reflexivity.
  - intros v' H. inversion H.
  - vm_compute. reflexivity.
Defined.

(** X3. The parser reads the text between the first and the second ['#']
    only: what follows a second ['#'] changes nothing. *)
Theorem getParamsFromUrl_second_hash (base frag rest : string) :
  contains "#" base = false →
  contains "#" frag = false →
  _getParamsFromUrl (base +:+ String "#"%char (frag +:+ String "#"%char rest))
  = _getParamsFromUrl (base +:+ String "#"%char frag).
Proof.
  intros Hb Hf. unfold _getParamsFromUrl, fragment.
  rewrite !(split_app_sep _ _ _ Hb), (split_app_sep _ _ _ Hf).
  now rewrite (split_absent _ _ Hf).
Qed.

Lemma getParamsFromUrl_second_hash_witness :
  _getParamsFromUrl "https://a/b#x=1#y=2=3"
  = _getParamsFromUrl "https://a/b#x=1".
Proof.
  apply (getParamsFromUrl_second_hash "https://a/b" "x=1" "y=2=3");
    reflexivity.
Defined.

Lemma split_snoc_sep sep s :
  split sep (s +:+ String sep EmptyString) = split sep s ++ [EmptyString].
Proof.
  induction s as [|c s IH].
  - simpl. now rewrite Ascii.eqb_refl.
  - change (String c s +:+ String sep EmptyString)
      with (String c (s +:+ String sep EmptyString)).
    simpl. rewrite IH. destruct (Ascii.eqb c sep); [reflexivity|].
    destruct (split sep s) as [|p ps] eqn:Es; [|reflexivity].
    pose proof (split_length sep s) as L. rewrite Es in L. discriminate L.
Qed.

(** X4. An empty piece is not accepted: a URL that ends with its ['#'], and
    a fragment that ends with ['&'], raise [ValueError]. *)
Theorem getParamsFromUrl_empty_piece (base frag : string) :
  contains "#" base = false →
  contains "#" frag = false →
  _getParamsFromUrl (base +:+ "#") = Err ValueError
  ∧ _getParamsFromUrl (base +:+ String "#"%char (frag +:+ "&")) = Err ValueError.
Proof.
  intros Hb Hf. unfold _getParamsFromUrl, fragment. split.
  - rewrite (split_app_sep _ _ _ Hb). reflexivity.
  - rewrite (split_app_sep _ _ _ Hb).
    assert (Hfa : contains "#" (frag +:+ "&") = false)
      by (apply contains_app; split; [exact Hf|reflexivity]).
    rewrite (split_absent _ _ Hfa). simpl.
    apply collect_bad_piece. apply Exists_exists. exists EmptyString.
    split; [|discriminate].
    rewrite split_snoc_sep. apply list_elem_of_In, in_or_app. right. now left.
Qed.

Lemma getParamsFromUrl_empty_piece_witness :
  _getParamsFromUrl "https://a/b#" = Err ValueError
  ∧ _getParamsFromUrl "https://a/b#x=1&" = Err ValueError.
Proof.
  apply (getParamsFromUrl_empty_piece "https://a/b" "x=1"); reflexivity.
Defined.

(** X5. The parser accepts every URL that has a ['#'] and whose pieces
    each have exactly one ['=']; a key or a value may be empty. With C9
    this makes the condition exact. *)
Theorem getParamsFromUrl_accepts (url frag : string) :
  fragment url = Ok frag →
  Forall (λ piece, count "=" piece = 1%nat) (split "&" frag) →
  ∃ m, _getParamsFromUrl url = Ok m.
Proof.
  intros Hf Hall. unfold _getParamsFromUrl. rewrite Hf.
  now apply collect_good_pieces.
Qed.

Lemma getParamsFromUrl_accepts_witness :
  ∃ m, _getParamsFromUrl "https://a/b#=v&k=" = Ok m.
Proof.
  apply (getParamsFromUrl_accepts "https://a/b#=v&k=" "=v&k=").
  - reflexivity.
  - repeat constructor.
Defined.

End ParamsMore.

(** ** The Prepare stage *)

Module PrepareMore.
Import PyStr Re Py Http Auth Notions Obs ParamsMore.

Lemma append_assoc (a b c : string) : (a +:+ b) +:+ c = a +:+ (b +:+ c).
Proof.
  induction a as [|x a IH]; [reflexivity|].
  change ((String x a +:+ b) +:+ c) with (String x ((a +:+ b) +:+ c)).
  now rewrite IH.
Qed.

Lemma drop_last_snoc s a : drop_last (s +:+ String a EmptyString) = s.
Proof.
  induction s as [|c s IH]; [reflexivity|].
  change (String c s +:+ String a EmptyString)
    with (String c (s +:+ String a EmptyString)).
  simpl. rewrite IH. destruct s; reflexivity.
Qed.

Lemma strip_prefix_shape p s r : strip_prefix p s = Some r → s = p +:+ r.
Proof.
  revert s. induction p as [|a p IH]; intros s H; simpl in H.
  - now inversion H.
  - destruct s as [|b s]; [discriminate|].
    destruct (Ascii.eqb a b) eqn:E; [|discriminate].
    apply Ascii.eqb_eq in E. subst b.
    change (String a p +:+ r) with (String a (p +:+ r)).
    now rewrite <- (IH _ H).
Qed.

(** What the lazy run has consumed when it ends: no closing character, no
    newline, and the closing character comes right after it. *)
Lemma lazy_rest_shape close s body :
  lazy_rest close s = Some body →
  (∃ after, s = body +:+ String close after)
  ∧ contains close body = false ∧ contains newline body = false.
Proof.
  revert body. induction s as [|c s IH]; intros body H; simpl in H;
    [discriminate|].
  destruct (Ascii.eqb c close) eqn:Ec.
  - inversion H; subst body. apply Ascii.eqb_eq in Ec. subst c.
    split; [now exists s|]. split; reflexivity.
  - destruct (Ascii.eqb c newline) eqn:En; [discriminate|].
    destruct (lazy_rest close s) as [b|]; [|discriminate].
    inversion H; subst body.
    destruct (IH b eq_refl) as ((after & ->) & Hc & Hn).
    split; [now exists after|]. split; apply contains_cons; auto.
Qed.

(** A match is the literal, a captured text that is not empty and has no
    newline, and the closing character; and it stands in the text. *)
Lemma match_here_shape lit close s m :
  match_here lit close s = Some m →
  ∃ captured after,
    m = lit +:+ captured +:+ String close EmptyString
    ∧ s = m +:+ after
    ∧ captured ≠ EmptyString
    ∧ contains newline captured = false.
Proof.
  unfold match_here. intros H.
  destruct (strip_prefix lit s) as [[|c rest]|] eqn:Ep; try discriminate.
  destruct (Ascii.eqb c newline) eqn:En; [discriminate|].
  destruct (lazy_rest close rest) as [body|] eqn:El; [|discriminate].
  inversion H; subst m.
  destruct (lazy_rest_shape _ _ _ El) as ((after & ->) & _ & Hn).
  exists (String c body), after. split; [reflexivity|]. split.
  - rewrite (strip_prefix_shape _ _ _ Ep).
    rewrite !append_assoc. f_equal.
  - split; [discriminate|]. apply contains_cons. auto.
Qed.

Lemma search_shape lit close s m :
  search lit close s = Some m →
  ∃ captured,
    m = lit +:+ captured +:+ String close EmptyString
    ∧ occurs_in m s
    ∧ captured ≠ EmptyString
    ∧ contains newline captured = false.
Proof.
  induction s as [|c s IH]; simpl; intros H.
  - destruct (match_here lit close EmptyString) as [m'|] eqn:E;
      [|discriminate]. inversion H; subst m'.
    destruct (match_here_shape _ _ _ _ E) as (cap & after & Hm & Hs & Hne & Hn).
    exists cap. repeat split; auto. exists EmptyString, after. exact Hs.
  - destruct (match_here lit close (String c s)) as [m'|] eqn:E.
    + inversion H; subst m'.
      destruct (match_here_shape _ _ _ _ E) as (cap & after & Hm & Hs & Hne & Hn).
      exists cap. repeat split; auto. exists EmptyString, after. exact Hs.
    + destruct (IH H) as (cap & Hm & (before & after & Hs) & Hne & Hn).
      exists cap. repeat split; auto.
      exists (String c before), after. rewrite Hs. reflexivity.
Qed.

Lemma search_none lit close s :
  search lit close s = None ↔ all_matches lit close s = [].
Proof.
  induction s as [|c s IH]; simpl.
  - destruct (match_here lit close EmptyString); simpl; split;
      intros; congruence.
  - destruct (match_here lit close (String c s)); simpl.
    + split; discriminate.
    + exact IH.
Qed.

(** The two slices give the captured text back. *)
Lemma hidden_field_slice captured :
  index dquote (HIDDEN_FIELD_lit +:+ captured +:+ String dquote EmptyString)
    = Ok 6%nat
  ∧ slice_to_last 7 (HIDDEN_FIELD_lit +:+ captured +:+ String dquote EmptyString)
    = captured.
Proof.
  split; [reflexivity|]. unfold slice_to_last.
  rewrite <- append_assoc, drop_last_snoc. reflexivity.
Qed.

Lemma url_post_slice captured :
  index squote (JS_ASSIGNED_STRING_lit +:+ captured +:+ String squote EmptyString)
    = Ok 8%nat
  ∧ slice_to_last 9 (JS_ASSIGNED_STRING_lit +:+ captured +:+ String squote EmptyString)
    = captured.
Proof.
  split; [reflexivity|]. unfold slice_to_last.
  rewrite <- append_assoc, drop_last_snoc. reflexivity.
Qed.

(** X6. What the Prepare stage returns was in the page: [value="sFTTag"]
    and [urlPost:'urlPost'] both occur in the body of the answer, and
    neither returned text is empty or holds a newline. *)
Theorem prepareMicrosoftLogin_returns_captures (srv : server) (tr tr' : trace)
    (sFTTag urlPost : string) :
  _prepareMicrosoftLogin srv tr = (Ok (sFTTag, urlPost), tr') →
  ∃ res, srv tr prepare_request = Ok res
    ∧ occurs_in (HIDDEN_FIELD_lit +:+ sFTTag +:+ String dquote EmptyString)
                (res_text res)
    ∧ occurs_in (JS_ASSIGNED_STRING_lit +:+ urlPost +:+ String squote EmptyString)
                (res_text res)
    ∧ sFTTag ≠ EmptyString ∧ urlPost ≠ EmptyString
    ∧ contains newline sFTTag = false ∧ contains newline urlPost = false.
Proof.
  unfold _prepareMicrosoftLogin, bind, send, lift, ret, raise,
    search_hidden_field, search_url_post.
  destruct (srv tr prepare_request) as [res|e]; [|discriminate].
  destruct (search HIDDEN_FIELD_lit dquote (res_text res)) as [src|] eqn:E1;
    [|discriminate].
  destruct (search_shape _ _ _ _ E1) as (cap1 & -> & Ho1 & Hne1 & Hn1).
  destruct (hidden_field_slice cap1) as [-> Hs1].
  destruct (search JS_ASSIGNED_STRING_lit squote (res_text res)) as [src|] eqn:E2;
    [|discriminate].
  destruct (search_shape _ _ _ _ E2) as (cap2 & -> & Ho2 & Hne2 & Hn2).
  destruct (url_post_slice cap2) as [-> Hs2].
  change (6 + 1)%nat with 7%nat. change (8 + 1)%nat with 9%nat.
  rewrite Hs1, Hs2. intros H. inversion H; subst.
  exists res. repeat split; auto.
Qed.

Lemma prepareMicrosoftLogin_returns_captures_witness :
  ∃ res, Fixtures.srv_denied [] prepare_request = Ok res
    ∧ occurs_in (HIDDEN_FIELD_lit +:+ "abc123" +:+ String dquote EmptyString)
                (res_text res)
    ∧ occurs_in (JS_ASSIGNED_STRING_lit +:+ "https://x/y" +:+ String squote EmptyString)
                (res_text res)
    ∧ "abc123" ≠ EmptyString ∧ "https://x/y" ≠ EmptyString
    ∧ contains newline "abc123" = false ∧ contains newline "https://x/y" = false.
Proof.
  apply (prepareMicrosoftLogin_returns_captures Fixtures.srv_denied []
           [Request prepare_request]).
  vm_compute. reflexivity.
Defined.

(** X7. The Prepare stage sends its one GET whatever happens, and it raises
    nothing but the exception of the transport, [SFTTagNotFoundError] when
    the hidden-field pattern matches nowhere in the page, and
    [URLPostNotFoundError] when that pattern matches and the assigned-string
    pattern matches nowhere; the two [index] calls never raise. *)
Theorem prepareMicrosoftLogin_errors (srv : server) (tr : trace) :
  snd (_prepareMicrosoftLogin srv tr) = tr ++ [Request prepare_request]
  ∧ ∀ e, fst (_prepareMicrosoftLogin srv tr) = Err e →
      srv tr prepare_request = Err e
      ∨ ∃ res, srv tr prepare_request = Ok res
          ∧ ((e = Exception "SFTTagNotFoundError: sFTTag value was not found"
              ∧ all_matches HIDDEN_FIELD_lit dquote (res_text res) = [])
             ∨ (e = Exception "URLPostNotFoundError: url post value was not found"
                ∧ all_matches HIDDEN_FIELD_lit dquote (res_text res) ≠ []
                ∧ all_matches JS_ASSIGNED_STRING_lit squote (res_text res) = [])).
Proof.
  unfold _prepareMicrosoftLogin, bind, send, lift, ret, raise,
    search_hidden_field, search_url_post.
  destruct (srv tr prepare_request) as [res|e0].
  2:{ split; [reflexivity|]. intros e H. left. now inversion H. }
  destruct (search HIDDEN_FIELD_lit dquote (res_text res)) as [src|] eqn:E1.
  2:{ split; [reflexivity|]. intros e H. inversion H; subst. right.
      exists res. split; [reflexivity|]. left.
      split; [reflexivity|now apply search_none]. }
  destruct (search_shape _ _ _ _ E1) as (cap1 & -> & _).
  destruct (hidden_field_slice cap1) as [-> _].
  destruct (search JS_ASSIGNED_STRING_lit squote (res_text res)) as [src|] eqn:E2.
  2:{ split; [reflexivity|]. intros e H. inversion H; subst. right.
      exists res. split; [reflexivity|]. right.
      split; [reflexivity|]. split; [|now apply search_none].
      intros Hnil. apply search_none in Hnil. congruence. }
  destruct (search_shape _ _ _ _ E2) as (cap2 & -> & _).
  destruct (url_post_slice cap2) as [-> _].
  split; [reflexivity|]. intros e H. discriminate H.
Qed.

Lemma prepareMicrosoftLogin_errors_witness :
  Fixtures2.srv_blank [] prepare_request
    = Err (Exception "SFTTagNotFoundError: sFTTag value was not found")
  ∨ ∃ res, Fixtures2.srv_blank [] prepare_request = Ok res
      ∧ ((Exception "SFTTagNotFoundError: sFTTag value was not found"
          = Exception "SFTTagNotFoundError: sFTTag value was not found"
          ∧ all_matches HIDDEN_FIELD_lit dquote (res_text res) = [])
         ∨ (Exception "SFTTagNotFoundError: sFTTag value was not found"
            = Exception "URLPostNotFoundError: url post value was not found"
            ∧ all_matches HIDDEN_FIELD_lit dquote (res_text res) ≠ []
            ∧ all_matches JS_ASSIGNED_STRING_lit squote (res_text res) = [])).
Proof.
  apply (proj2 (prepareMicrosoftLogin_errors Fixtures2.srv_blank [])).
  reflexivity.
Defined.

End PrepareMore.

(** ** The handshake as a whole *)

Module HandshakeMore.
Import PyStr Re Py Http Params Auth Notions Obs Fixtures.

Lemma bind_ok {A B} (m : M A) (k : A → M B) tr b tr' :
  bind m k tr = (Ok b, tr') →
  ∃ a t, m tr = (Ok a, t) ∧ k a t = (Ok b, tr').
Proof.
  unfold bind. destruct (m tr) as [[a|e] t]; [eauto|discriminate].
Qed.

Lemma lift_ok {A} (r : result A) tr a tr' :
  lift r tr = (Ok a, tr') → r = Ok a ∧ tr' = tr.
Proof. unfold lift. intros H. now inversion H. Qed.

Lemma send_ok srv r tr res tr' :
  send srv r tr = (Ok res, tr') → srv tr r = Ok res ∧ tr' = tr ++ [Request r].
Proof. unfold send. intros H. now inversion H. Qed.

Lemma ret_ok {A} (a b : A) tr tr' : ret a tr = (Ok b, tr') → a = b ∧ tr' = tr.
Proof. unfold ret. intros H. now inversion H. Qed.

Lemma print_ok s tr u tr' :
  print s tr = (Ok u, tr') → tr' = tr ++ [Print (Line s)].
Proof. unfold print, emit. intros H. now inversion H. Qed.

(** Taking a successful run apart, one step at a time. *)
Ltac run_inv H :=
  repeat
    (lazymatch type of H with
     | bind _ _ _ = (Ok _, _) =>
         let a := fresh "a" in let t := fresh "t" in
         let H1 := fresh "Hstep" in
         apply bind_ok in H as (a & t & H1 & H);
         first [ apply lift_ok in H1 as [H1 ->]
               | apply send_ok in H1 as [H1 ->]
               | apply print_ok in H1 as ->
               | idtac ]
     end).

Lemma authenticateWithMicrosoft_ok srv urlPost sFTTag c tr a tr' :
  _authenticateWithMicrosoft srv urlPost sFTTag c tr = (Ok a, tr') →
  ∃ res, srv tr (login_request urlPost sFTTag c) = Ok res
    ∧ access_token_of (res_url res) = Some a
    ∧ tr' = tr ++ [Request (login_request urlPost sFTTag c)].
Proof.
  unfold _authenticateWithMicrosoft. intros H. run_inv H.
  exists a0. unfold access_token_of. rewrite Hstep0.
  destruct (a1 !! "access_token") as [tok|]; [|discriminate].
  apply ret_ok in H as [-> ->]. auto.
Qed.

Lemma authenticateWithXboxLive_ok srv a tr x h tr' :
  _authenticateWithXboxLive srv a tr = (Ok (x, h), tr') →
  ∃ res p claims xui xui0,
    srv tr (xbox_live_request a) = Ok res
    ∧ res_json res = Ok p
    ∧ getitem p "Token" = Ok x
    ∧ getitem p "DisplayClaims" = Ok claims
    ∧ getitem claims "xui" = Ok xui
    ∧ getitem0 xui = Ok xui0
    ∧ getitem xui0 "uhs" = Ok h
    ∧ tr' = tr ++ [Request (xbox_live_request a)].
Proof.
  unfold _authenticateWithXboxLive. intros H. run_inv H.
  apply ret_ok in H as [Hp ->]. inversion Hp; subst.
  eexists _, _, _, _, _. repeat split; eassumption.
Qed.

Lemma getXstsToken_ok srv x tr s tr' :
  _getXstsToken srv x tr = (Ok s, tr') →
  ∃ res p, srv tr (xsts_request x) = Ok res
    ∧ res_json res = Ok p
    ∧ getitem p "Token" = Ok s
    ∧ tr' = tr ++ [Request (xsts_request x)].
Proof.
  unfold _getXstsToken. intros H. run_inv H.
  apply ret_ok in H as [-> ->]. eexists _, _. repeat split; eassumption.
Qed.

Lemma authenticateWithMinecraft_ok py_repr srv s h tr tok tr' :
  _authenticateWithMinecraft py_repr srv s h tr = (Ok tok, tr') →
  ∃ res p, srv tr (minecraft_request py_repr s h) = Ok res
    ∧ res_json res = Ok p
    ∧ getitem p "access_token" = Ok tok
    ∧ tr' = tr ++ [Request (minecraft_request py_repr s h)].
Proof.
  unfold _authenticateWithMinecraft. intros H. run_inv H.
  apply ret_ok in H as [-> ->]. eexists _, _. repeat split; eassumption.
Qed.

(** X8. A handshake that returns a token went through the five stages in
    order, each one fed by the one before: the login POST goes to the URL
    and carries the tag scraped from the page; the broker is given the
    [access_token] of the redirect; the token service is given the broker's
    [Token]; the game service is given the [uhs] of the broker's first claim
    and the token service's [Token]; and the token returned is the
    [access_token] of the game service's answer. Each stage is followed by
    its status line, and nothing else is sent. *)
Theorem authenticate_success (py_repr : pyval → string) (srv : server)
    (c : credentials) (tr tr' : trace) (mcAccessToken : pyval) :
  authenticate py_repr srv c tr = (Ok mcAccessToken, tr') →
  ∃ sFTTag urlPost msAccessToken xboxLiveToken userHash xstsToken
    res2 res3 res4 res5 p3 p4 p5 claims xui xui0,
    let tr1 := tr ++ [Request prepare_request;
                      Print (Line "STATUS 200: Successfully prepared for authentication")] in
    let tr2 := tr1 ++ [Request (login_request urlPost sFTTag c);
                       Print (Line "STATUS 200: Authenticated with Microsoft")] in
    let tr3 := tr2 ++ [Request (xbox_live_request msAccessToken);
                       Print (Line "STATUS 200: Authenticated with Xbox Live")] in
    let tr4 := tr3 ++ [Request (xsts_request xboxLiveToken);
                       Print (Line "STATUS 200: Retrieved xsts token")] in
    tr' = tr4 ++ [Request (minecraft_request py_repr xstsToken userHash);
                  Print (Line "STATUS 200: Authenticated with Minecraft")]
    ∧ _prepareMicrosoftLogin srv tr
      = (Ok (sFTTag, urlPost), tr ++ [Request prepare_request])
    ∧ srv tr1 (login_request urlPost sFTTag c) = Ok res2
    ∧ access_token_of (res_url res2) = Some msAccessToken
    ∧ srv tr2 (xbox_live_request msAccessToken) = Ok res3
    ∧ res_json res3 = Ok p3
    ∧ getitem p3 "Token" = Ok xboxLiveToken
    ∧ getitem p3 "DisplayClaims" = Ok claims
    ∧ getitem claims "xui" = Ok xui
    ∧ getitem0 xui = Ok xui0
    ∧ getitem xui0 "uhs" = Ok userHash
    ∧ srv tr3 (xsts_request xboxLiveToken) = Ok res4
    ∧ res_json res4 = Ok p4
    ∧ getitem p4 "Token" = Ok xstsToken
    ∧ srv tr4 (minecraft_request py_repr xstsToken userHash) = Ok res5
    ∧ res_json res5 = Ok p5
    ∧ getitem p5 "access_token" = Ok mcAccessToken.
Proof.
  intros H. unfold authenticate in H.
  apply bind_ok in H as ([sFTTag urlPost] & t1 & H1 & H).
  pose proof (AuthFacts.prepareMicrosoftLogin_trace srv tr) as Ht1.
  rewrite H1 in Ht1. simpl in Ht1. subst t1.
  apply bind_ok in H as (u1 & t & P1 & H). apply print_ok in P1 as ->.
  apply bind_ok in H as (a & t & H2 & H).
  apply authenticateWithMicrosoft_ok in H2 as (res2 & S2 & A2 & ->).
  apply bind_ok in H as (u2 & t & P2 & H). apply print_ok in P2 as ->.
  apply bind_ok in H as ([x h] & t & H3 & H).
  apply authenticateWithXboxLive_ok in H3
    as (res3 & p3 & claims & xui & xui0 & S3 & J3 & G3 & G3a & G3b & G3c & G3d & ->).
  apply bind_ok in H as (u3 & t & P3 & H). apply print_ok in P3 as ->.
  apply bind_ok in H as (s & t & H4 & H).
  apply getXstsToken_ok in H4 as (res4 & p4 & S4 & J4 & G4 & ->).
  apply bind_ok in H as (u4 & t & P4 & H). apply print_ok in P4 as ->.
  apply bind_ok in H as (tok & t & H5 & H).
  apply authenticateWithMinecraft_ok in H5 as (res5 & p5 & S5 & J5 & G5 & ->).
  apply bind_ok in H as (u5 & t & P5 & H). apply print_ok in P5 as ->.
  apply ret_ok in H as [-> ->].
  rewrite <- !app_assoc in *. simpl in *.
  exists sFTTag, urlPost, a, x, h, s, res2, res3, res4, res5, p3, p4, p5,
    claims, xui, xui0.
  cbv zeta. rewrite <- !app_assoc. simpl.
  repeat split; assumption || reflexivity.
Qed.

Lemma authenticate_success_witness :
  ∃ tr', authenticate repr0 Fixtures2.srv_steady creds0 [] = (Ok (PStr "mc-token"), tr')
         ∧ length (requests_of tr') = 5%nat.
Proof.
  assert (H : authenticate repr0 Fixtures2.srv_steady creds0 []
              = (Ok (PStr "mc-token"),
                 snd (authenticate repr0 Fixtures2.srv_steady creds0 [])))
    by (vm_compute; reflexivity).
  exists (snd (authenticate repr0 Fixtures2.srv_steady creds0 [])).
  split; [exact H|].
  destruct (authenticate_success _ _ _ _ _ _ H)
    as (? & ? & ? & ? & ? & ? & ? & ? & ? & ? & ? & ? & ? & ? & ? & ? & E & _).
  rewrite E. reflexivity.
Defined.

(** Each later stage sends its one request, whatever comes back. *)
Lemma authenticateWithMicrosoft_trace srv urlPost sFTTag c tr :
  snd (_authenticateWithMicrosoft srv urlPost sFTTag c tr)
  = tr ++ [Request (login_request urlPost sFTTag c)].
Proof.
  unfold _authenticateWithMicrosoft, bind, send, lift, ret, raise.
  destruct (srv tr _) as [res|e]; [|reflexivity].
  destruct (_getParamsFromUrl (res_url res)) as [m|e]; [|reflexivity].
  destruct (m !! "access_token"); reflexivity.
Qed.

Lemma authenticateWithXboxLive_trace srv a tr :
  snd (_authenticateWithXboxLive srv a tr) = tr ++ [Request (xbox_live_request a)].
Proof.
  unfold _authenticateWithXboxLive, bind, send, lift, ret.
  destruct (srv tr _) as [res|e]; [|reflexivity].
  destruct (res_json res) as [p|e]; [|reflexivity].
  destruct (getitem p "Token"); [|reflexivity].
  destruct (getitem p "DisplayClaims") as [d|e]; [|reflexivity].
  destruct (getitem d "xui") as [x|e]; [|reflexivity].
  destruct (getitem0 x) as [x0|e]; [|reflexivity].
  destruct (getitem x0 "uhs"); reflexivity.
Qed.

Lemma getXstsToken_trace srv x tr :
  snd (_getXstsToken srv x tr) = tr ++ [Request (xsts_request x)].
Proof.
  unfold _getXstsToken, bind, send, lift, ret.
  destruct (srv tr _) as [res|e]; [|reflexivity].
  destruct (res_json res) as [p|e]; [|reflexivity].
  destruct (getitem p "Token"); reflexivity.
Qed.

Lemma authenticateWithMinecraft_trace py_repr srv s h tr :
  snd (_authenticateWithMinecraft py_repr srv s h tr)
  = tr ++ [Request (minecraft_request py_repr s h)].
Proof.
  unfold _authenticateWithMinecraft, bind, send, lift, ret.
  destruct (srv tr _) as [res|e]; [|reflexivity].
  destruct (res_json res) as [p|e]; [|reflexivity].
  destruct (getitem p "access_token"); reflexivity.
Qed.

(** X9. Whatever the remote side does, [authenticate] sends at least one
    request and at most five, and they are the requests of the stages in
    their order, up to the stage that raised; it sends all five exactly
    when it returns a token. One status line is printed for each stage that
    went through. *)
Theorem authenticate_requests (py_repr : pyval → string) (srv : server)
    (c : credentials) (tr : trace) :
  ∃ evs urlPost sFTTag msAccessToken xboxLiveToken userHash xstsToken,
    snd (authenticate py_repr srv c tr) = tr ++ evs
    ∧ requests_of evs ≠ []
    ∧ requests_of evs `prefix_of`
        handshake_requests py_repr c urlPost sFTTag msAccessToken
                           xboxLiveToken userHash xstsToken
    ∧ match fst (authenticate py_repr srv c tr) with
      | Ok _ => length (requests_of evs) = 5%nat ∧ printed_lines evs = 5%nat
      | Err _ => (length (requests_of evs) ≤ 5)%nat
                 ∧ S (printed_lines evs) = length (requests_of evs)
      end.
Proof.
  destruct (authenticate py_repr srv c tr) as [r tfin] eqn:EA. simpl.
  unfold authenticate in EA. unfold bind at 1 in EA.
  pose proof (AuthFacts.prepareMicrosoftLogin_trace srv tr) as T1.
  destruct (_prepareMicrosoftLogin srv tr) as [[[sFTTag urlPost]|e] t] eqn:E1;
    simpl in T1; subst t.
  2:{ inversion EA; subst.
      exists [Request prepare_request], "", "", "", PNone, PNone, PNone.
      simpl. repeat split; try discriminate; try lia.
      eexists. reflexivity. }
  unfold bind at 1, print at 1, emit at 1 in EA. unfold bind at 1 in EA.
  match type of EA with context [_authenticateWithMicrosoft srv urlPost sFTTag c ?t0] =>
    pose proof (authenticateWithMicrosoft_trace srv urlPost sFTTag c t0) as T2;
    destruct (_authenticateWithMicrosoft srv urlPost sFTTag c t0)
      as [[a|e] t] eqn:E2; simpl in T2; subst t end.
  2:{ inversion EA; subst.
      eexists _, urlPost, sFTTag, "", PNone, PNone, PNone.
      rewrite <- !app_assoc. simpl.
      repeat split; try reflexivity; try discriminate; try (simpl; lia).
      eexists. reflexivity. }
  unfold bind at 1, print at 1, emit at 1 in EA. unfold bind at 1 in EA.
  match type of EA with context [_authenticateWithXboxLive srv a ?t0] =>
    pose proof (authenticateWithXboxLive_trace srv a t0) as T3;
    destruct (_authenticateWithXboxLive srv a t0)
      as [[[x h]|e] t] eqn:E3; simpl in T3; subst t end.
  2:{ inversion EA; subst.
      eexists _, urlPost, sFTTag, a, PNone, PNone, PNone.
      rewrite <- !app_assoc. simpl.
      repeat split; try reflexivity; try discriminate; try (simpl; lia).
      eexists. reflexivity. }
  unfold bind at 1, print at 1, emit at 1 in EA. unfold bind at 1 in EA.
  match type of EA with context [_getXstsToken srv x ?t0] =>
    pose proof (getXstsToken_trace srv x t0) as T4;
    destruct (_getXstsToken srv x t0) as [[s|e] t] eqn:E4;
    simpl in T4; subst t end.
  2:{ inversion EA; subst.
      eexists _, urlPost, sFTTag, a, x, PNone, PNone.
      rewrite <- !app_assoc. simpl.
      repeat split; try reflexivity; try discriminate; try (simpl; lia).
      eexists. reflexivity. }
  unfold bind at 1, print at 1, emit at 1 in EA. unfold bind at 1 in EA.
  match type of EA with context [_authenticateWithMinecraft py_repr srv s h ?t0] =>
    pose proof (authenticateWithMinecraft_trace py_repr srv s h t0) as T5;
    destruct (_authenticateWithMinecraft py_repr srv s h t0) as [[tok|e] t] eqn:E5;
    simpl in T5; subst t end.
  2:{ inversion EA; subst.
      eexists _, urlPost, sFTTag, a, x, h, s.
      rewrite <- !app_assoc. simpl.
      repeat split; try reflexivity; try discriminate; try (simpl; lia). }
  unfold bind at 1, print at 1, emit at 1, ret in EA.
  inversion EA; subst.
  eexists _, urlPost, sFTTag, a, x, h, s.
  rewrite <- !app_assoc. simpl.
  repeat split; try reflexivity; try discriminate.
Qed.

End HandshakeMore.

(** ** The player list, further *)

Module ClientMore.
Import PyStr Py Http Auth Client Notions Obs Fixtures HandshakeMore.

Section WithServer.
Context (json_loads : string → result pyval).
Context (py_repr : pyval → string).
Context (srv : server).

(** A directory lookup sends its one GET, whatever comes back. *)
Lemma getUsername_trace uid tr :
  snd (getUsername py_repr srv uid tr)
  = tr ++ [Request (username_request py_repr uid)].
Proof.
  unfold getUsername, bind, send, lift, ret, raise.
  destruct (srv tr _) as [res|e]; [|reflexivity].
  destruct (res_json res) as [p|e]; [|reflexivity].
  destruct (getitem0 p) as [x|e]; [|reflexivity].
  destruct (getitem x "name") as [[]|e]; reflexivity.
Qed.

(** The comprehension over the players: one lookup for each, in order. *)
Lemma resolve_players players tr names tr' :
  mapM (λ player, bind (lift (getitem player "playerId"))
                       (getPlayerName py_repr srv))
       players tr = (Ok names, tr') →
  ∃ ids,
    Forall2 (λ player id, getitem player "playerId" = Ok id) players ids
    ∧ tr' = tr ++ map (λ id, Request (username_request py_repr id)) ids
    ∧ length names = length ids
    ∧ ∀ i id, ids !! i = Some id →
        ∃ name, names !! i = Some name
          ∧ fst (getUsername py_repr srv id
                   (tr ++ map (λ id, Request (username_request py_repr id))
                              (take i ids)))
            = Ok name.
Proof.
  revert tr names tr'. induction players as [|p ps IH]; intros tr names tr' H.
  - simpl in H. apply ret_ok in H as [<- ->].
    exists []. repeat split; [constructor|symmetry; apply app_nil_r|].
    intros i id Hi. destruct i; discriminate Hi.
  - simpl in H.
    apply bind_ok in H as (y & t1 & Hy & H).
    apply bind_ok in Hy as (id & t & Hid & Hy).
    apply lift_ok in Hid as [Hid ->].
    apply bind_ok in H as (ys & t2 & Hys & H).
    apply ret_ok in H as [<- ->].
    unfold getPlayerName in Hy.
    pose proof (getUsername_trace id tr) as T. rewrite Hy in T. simpl in T.
    subst t1.
    destruct (IH _ _ _ Hys) as (ids & F & -> & L & N).
    exists (id :: ids). split; [now constructor|]. split.
    { simpl. now rewrite <- app_assoc. }
    split; [simpl; now rewrite L|].
    intros [|i] id' Hi; simpl in Hi.
    + inversion Hi; subst id'. exists y. split; [reflexivity|].
      simpl. rewrite app_nil_r. now rewrite Hy.
    + destruct (N i id' Hi) as (name & Hn & Hf).
      exists name. split; [exact Hn|].
      simpl. rewrite <- app_assoc in Hf. exact Hf.
Qed.

(** X10. When the players of an entry are resolved, one directory lookup
    is sent for each player of its list, in the order of the list and with
    no other request between; as many names are returned as there are
    players, and the name at each position is the answer to the lookup of
    the player at that position. *)
Theorem players_of_one_lookup_each (serverActivity : pyval) (tr tr' : trace)
    (names : list string) :
  players_of json_loads py_repr srv serverActivity tr = (Ok names, tr') →
  ∃ text playerList players ids,
    getitem serverActivity "playerList" = Ok (PStr text)
    ∧ json_loads text = Ok playerList
    ∧ iter playerList = Ok players
    ∧ Forall2 (λ player id, getitem player "playerId" = Ok id) players ids
    ∧ tr' = tr ++ map (λ id, Request (username_request py_repr id)) ids
    ∧ length names = length players
    ∧ ∀ i id, ids !! i = Some id →
        ∃ name, names !! i = Some name
          ∧ fst (getUsername py_repr srv id
                   (tr ++ map (λ id, Request (username_request py_repr id))
                              (take i ids)))
            = Ok name.
Proof.
  unfold players_of. intros H.
  apply bind_ok in H as (pls & t & H1 & H). apply lift_ok in H1 as [H1 ->].
  apply bind_ok in H as (pl & t & H2 & H). apply lift_ok in H2 as [H2 ->].
  apply bind_ok in H as (players & t & H3 & H). apply lift_ok in H3 as [H3 ->].
  destruct pls as [| | | |text| |]; try discriminate H2. simpl in H2.
  destruct (resolve_players _ _ _ _ H) as (ids & F & -> & L & N).
  exists text, pl, players, ids. repeat split; auto.
  rewrite L. symmetry. exact (Forall2_length _ _ _ F).
Qed.

(** X11. An entry that has no [serverId], or is not a dict, and that the
    loop meets before any matching entry makes the query raise, whatever
    follows it, a matching entry included. *)
Theorem getPlayersList_bad_entry (self : client) (targetServerId : Z)
    (tr : trace) (res : response) (payload lists : pyval)
    (pre post : list pyval) (bad : pyval) (e : error) :
  srv tr (players_request py_repr self) = Ok res →
  res_json res = Ok payload →
  getitem payload "lists" = Ok lists →
  iter lists = Ok (pre ++ bad :: post) →
  Forall (passed_over targetServerId) pre →
  getitem bad "serverId" = Err e →
  getPlayersList json_loads py_repr srv self targetServerId tr
    = (Err e, tr ++ [Request (players_request py_repr self)]).
Proof.
  intros Hres Hjson Hlists Hiter Hpre Hbad.
  rewrite (ClientFacts.getPlayersList_scan _ _ _ _ _ _ _ _ _ _
             Hres Hjson Hlists Hiter).
  rewrite (ClientFacts.scan_passed_over _ _ _ _ _ _ _ Hpre).
  simpl. unfold bind, lift. now rewrite Hbad.
Qed.

End WithServer.

Lemma players_of_one_lookup_each_witness :
  ∃ text playerList players ids,
    getitem (entry 7 (one_player "u1")) "playerList" = Ok (PStr text)
    ∧ loads0 text = Ok playerList
    ∧ iter playerList = Ok players
    ∧ Forall2 (λ player id, getitem player "playerId" = Ok id) players ids
    ∧ [Request (username_request repr0 (PStr "u1"))]
      = [] ++ map (λ id, Request (username_request repr0 id)) ids
    ∧ length ["Steve"] = length players
    ∧ ∀ i id, ids !! i = Some id →
        ∃ name, ["Steve"] !! i = Some name
          ∧ fst (getUsername repr0 Fixtures2.srv_steady id
                   ([] ++ map (λ id, Request (username_request repr0 id))
                              (take i ids)))
            = Ok name.
Proof.
  apply (players_of_one_lookup_each loads0 repr0 Fixtures2.srv_steady).
  vm_compute. reflexivity.
Defined.

Lemma getPlayersList_bad_entry_witness :
  getPlayersList loads0 repr0
    (scripted good_redirect good_mc_payload
       (λ _, Ok (lists_payload [entry 3 "[]"; PDict []; entry 7 (one_player "u1")])))
    self0 7 []
  = (Err (KeyError (KStr "serverId")), [Request (players_request repr0 self0)]).
Proof.
  refine (getPlayersList_bad_entry loads0 repr0 _ self0 7 []
            (json_response players_url
               (lists_payload [entry 3 "[]"; PDict []; entry 7 (one_player "u1")]))
            _ _ [entry 3 "[]"] [entry 7 (one_player "u1")] (PDict []) _
            eq_refl eq_refl eq_refl eq_refl _ eq_refl).
  repeat constructor. exists (PInt 3). split; reflexivity.
Defined.

End ClientMore.

(** ** Building the client *)

Module InitMore.
Import PyStr Py Http Auth Client Notions Obs Fixtures HandshakeMore.

Section WithServer.
Context (py_repr : pyval → string).
Context (srv : server).


End WithServer.


End InitMore.

(** ** The poller, further *)

Module PollerMore.
Import PyStr Py Http Auth Client Webhook Notions Obs Fixtures TraceFacts
  HandshakeMore.

Lemma length_append (a b : string) :
  String.length (a +:+ b) = (String.length a + String.length b)%nat.
Proof.
  induction a as [|c a IH]; [reflexivity|].
  change (String c a +:+ b) with (String c (a +:+ b)). simpl. now rewrite IH.
Qed.

Lemma append_inv_tail (a b s : string) : a +:+ s = b +:+ s → a = b.
Proof.
  revert b. induction a as [|c a IH]; intros [|d b] H.
  - reflexivity.
  - apply (f_equal String.length) in H. rewrite !length_append in H.
    simpl in H. lia.
  - apply (f_equal String.length) in H. rewrite !length_append in H.
    simpl in H. lia.
  - change (String c (a +:+ s) = String d (b +:+ s)) in H.
    inversion H; subst. f_equal. now apply IH.
Qed.

(** Two notifications are the same request only for the same name. *)
Lemma notification_inj cfg name name' :
  notification cfg name = notification cfg name' → name = name'.
Proof.
  unfold notification. intros H. inversion H as [E].
  exact (append_inv_tail name name' " is now playing on the server!" E).
Qed.

Lemma count_events_app test tr1 tr2 :
  count_events test (tr1 ++ tr2)
  = (count_events test tr1 + count_events test tr2)%nat.
Proof.
  unfold count_events. now rewrite List.filter_app, length_app.
Qed.

Lemma count_events_none test tr :
  Forall (λ ev, test ev = false) tr → count_events test tr = 0%nat.
Proof.
  unfold count_events. induction 1 as [|ev tr H _ IH]; [reflexivity|].
  simpl. now rewrite H.
Qed.

Section WithServer.
Context (json_loads : string → result pyval).
Context (py_repr : pyval → string).
Context (srv : server).
Context (cfg : config).

Local Abbreviation getPlayers c :=
  (getPlayersList json_loads py_repr srv c (SERVER_ID cfg)).

(** The query sends its GET first; what follows are directory lookups. *)
Lemma getPlayersList_head (P : event → Prop) c target tr :
  (∀ uid, P (Request (username_request py_repr uid))) →
  ∃ evs, snd (getPlayersList json_loads py_repr srv c target tr)
         = tr ++ Request (players_request py_repr c) :: evs
         ∧ Forall P evs.
Proof.
  intros HP. unfold getPlayersList. unfold bind at 1, send at 1.
  destruct (srv tr (players_request py_repr c)) as [res|e].
  - assert (E : emits P (bind (lift (res_json res)) (λ resPayload,
                  bind (lift (getitem resPayload "lists")) (λ l,
                  bind (lift (iter l)) (λ entries,
                  scan json_loads py_repr srv target entries))))).
    { repeat (emits_step; auto). now apply ClientFacts.scan_emits. }
    destruct (E (tr ++ [Request (players_request py_repr c)]))
      as (evs & E' & F).
    exists evs. rewrite E'. now rewrite <- app_assoc.
  - exists []. split; [reflexivity|constructor].
Qed.

Lemma query_counts c tr :
  ∃ evs, snd (getPlayers c tr) = tr ++ evs
         ∧ count_events is_players_query evs = 1%nat
         ∧ count_events is_sleep evs = 0%nat.
Proof.
  destruct (getPlayersList_head
              (λ ev, is_players_query ev = false ∧ is_sleep ev = false)
              c (SERVER_ID cfg) tr) as (evs & E & F).
  { intros uid. split; reflexivity. }
  exists (Request (players_request py_repr c) :: evs). split; [exact E|].
  change (Request (players_request py_repr c) :: evs)
    with ([Request (players_request py_repr c)] ++ evs).
  rewrite !count_events_app. split.
  - rewrite (count_events_none is_players_query evs); [reflexivity|].
    eapply Forall_impl; [exact F|]. now intros ev [H _].
  - rewrite (count_events_none is_sleep evs); [reflexivity|].
    eapply Forall_impl; [exact F|]. now intros ev [_ H].
Qed.

Section Loop.
Context (set_order : gset string → list string).

Local Abbreviation loop := (Webhook.loop json_loads py_repr set_order srv cfg).
Local Abbreviation main := (Webhook.main json_loads py_repr set_order srv cfg).





(** X14. A cycle notifies no one but newly online players: when the visit
    of a set yields members of that set only, every notification the cycle
    sends is for a name that is in the answer of its query and was not in
    [prevPlayers]. A player who stays online is not announced again. *)
Theorem loop_cycle_notifies_only_new (c : client) (prev : gset string)
    (tr tr1 : trace) (names : list string) :
  getPlayers c tr = (Ok names, tr1) →
  (∀ X x, x ∈ set_order X → x ∈ X) →
  ∃ evs, snd (loop 1 c prev tr) = tr1 ++ evs
    ∧ ∀ name, Request (notification cfg name) ∈ evs →
        name ∈ names ∧ name ∉ prev.
Proof.
  intros Hq Hord.
  destruct (WebhookFacts.loop_cycle_ok json_loads py_repr srv cfg set_order
              c prev tr names tr1 Hq) as (_ & k & rest & E & Hrest).
  eexists. split; [exact E|]. intros name Hin.
  apply elem_of_cons in Hin as [Hin|Hin]; [discriminate Hin|].
  apply elem_of_app in Hin as [Hin|Hin].
  - apply list_elem_of_fmap in Hin as (name' & Heq & Hin').
    assert (Hn : notification cfg name = notification cfg name') by congruence.
    apply notification_inj in Hn. subst name'.
    apply elem_of_take in Hin' as (i & Hi & _).
    assert (Hm : name ∈ set_order (list_to_set names ∖ prev))
      by (apply list_elem_of_lookup; eauto).
    apply Hord in Hm. apply elem_of_difference in Hm as [Hm Hp].
    split; [now apply elem_of_list_to_set in Hm|exact Hp].
  - destruct Hrest as [-> | ->].
    + inversion Hin.
    + apply list_elem_of_singleton in Hin. discriminate Hin.
Qed.

(** The visit of the notification loop up to a POST that raises. *)
Lemma forM_notify_fails (before : list string) (failed : string)
    (others : list string) (e : error) (t : trace) :
  (∀ i name, before !! i = Some name →
     ∃ res, srv (t ++ map (λ name, Request (notification cfg name)) (take i before))
                (notification cfg name) = Ok res) →
  srv (t ++ map (λ name, Request (notification cfg name)) before)
      (notification cfg failed) = Err e →
  forM_ (notify srv cfg) (before ++ failed :: others) t
  = (Err e, t ++ map (λ name, Request (notification cfg name)) before
              ++ [Request (notification cfg failed)]).
Proof.
  revert t. induction before as [|x before IH]; intros t Hok Hfail.
  - simpl in *. rewrite app_nil_r in Hfail.
    unfold bind at 1. unfold notify at 1. unfold bind at 1, send at 1.
    now rewrite Hfail.
  - simpl. unfold bind at 1. unfold notify at 1. unfold bind at 1, send at 1.
    destruct (Hok 0%nat x eq_refl) as [res Hres].
    simpl in Hres. rewrite app_nil_r in Hres. rewrite Hres. unfold ret.
    rewrite (IH (t ++ [Request (notification cfg x)])).
    + now rewrite <- app_assoc.
    + intros i name Hi. destruct (Hok (S i) name Hi) as [res' Hres'].
      exists res'. simpl in Hres'. now rewrite <- app_assoc.
    + simpl in Hfail. now rewrite <- app_assoc.
Qed.

(** X15. When the POST of a notification raises, at whatever place of the
    visit, the exception ends the process there: the names visited before
    it have been announced, the names still to be visited never are, and
    [prevPlayers] already holds [currPlayers]. *)
Theorem loop_notification_failure (cycles : nat) (c : client)
    (prev : gset string) (tr tr1 : trace) (names : list string)
    (before : list string) (failed : string) (others : list string)
    (e : error) :
  getPlayers c tr = (Ok names, tr1) →
  set_order (list_to_set names ∖ prev) = before ++ failed :: others →
  (∀ i name, before !! i = Some name →
     ∃ res,
       srv ((tr1 ++ [Print (Sets prev (list_to_set names)
                                 (list_to_set names ∖ prev))])
            ++ map (λ name, Request (notification cfg name)) (take i before))
           (notification cfg name) = Ok res) →
  srv ((tr1 ++ [Print (Sets prev (list_to_set names) (list_to_set names ∖ prev))])
       ++ map (λ name, Request (notification cfg name)) before)
      (notification cfg failed) = Err e →
  loop (S cycles) c prev tr
  = (Raised e (list_to_set names),
     tr1 ++ Print (Sets prev (list_to_set names) (list_to_set names ∖ prev))
         :: map (λ name, Request (notification cfg name)) before
         ++ [Request (notification cfg failed)]).
Proof.
  intros Hq Hord Hok Hfail. simpl. rewrite Hq, Hord.
  rewrite (forM_notify_fails before failed others e _ Hok Hfail).
  now rewrite <- !app_assoc.
Qed.

(** X16. When the handshake raises, [main] ends with that exception and
    has done nothing but the handshake: no directory lookup, no query of
    the player list, no notification. *)
Theorem main_aborts_on_failed_handshake (cycles : nat) (e : error) (tr : trace) :
  authenticate py_repr srv {| email := EMAIL cfg; password := PASSWORD cfg |} []
    = (Err e, tr) →
  main cycles = (Aborted e, tr).
Proof.
  intros H. unfold Webhook.main, startup, __init__, _authenticate.
  unfold bind at 1 2 3. now rewrite H.
Qed.

(** X17. When the first query of the player list raises, [main] ends with
    that exception before the loop: no cycle runs and nothing is
    announced. *)
Theorem main_aborts_on_failed_first_query (cycles : nat) (c : client)
    (e : error) (tr1 tr2 : trace) :
  __init__ py_repr srv (USERNAME cfg) (EMAIL cfg) (PASSWORD cfg) [] = (Ok c, tr1) →
  getPlayers c tr1 = (Err e, tr2) →
  main cycles = (Aborted e, tr2)
  ∧ Forall (λ ev, ¬ is_notification cfg ev) tr2
  ∧ count_events is_sleep tr2 = 0%nat.
Proof.
  intros Hi Hq. split; [|split].
  - unfold Webhook.main, startup. unfold bind at 1. rewrite Hi.
    unfold bind at 1. now rewrite Hq.
  - destruct (WebhookFacts.init_not_notification py_repr srv cfg
                (USERNAME cfg) (EMAIL cfg) (PASSWORD cfg) []) as (evs1 & E1 & F1).
    rewrite Hi in E1. simpl in E1. subst tr1.
    destruct (WebhookFacts.query_not_notification json_loads py_repr srv cfg c evs1)
      as (evs2 & E2 & F2).
    rewrite Hq in E2. simpl in E2. subst tr2. now apply Forall_app.
  - assert (Hinit : emits (λ ev, is_sleep ev = false)
                      (__init__ py_repr srv (USERNAME cfg) (EMAIL cfg) (PASSWORD cfg)))
      by (apply WebhookFacts.init_emits; reflexivity).
    destruct (Hinit []) as (evs1 & E1 & F1).
    rewrite Hi in E1. simpl in E1. subst tr1.
    destruct (query_counts c evs1) as (evs2 & E2 & _ & S2).
    rewrite Hq in E2. simpl in E2. subst tr2.
    rewrite count_events_app, S2, (count_events_none _ _ F1). reflexivity.
Qed.

(** X18. A loop that is still running after [cycles] cycles has sent
    exactly one query of the player list and slept exactly once in each of
    them. *)
Theorem loop_one_query_per_cycle (cycles : nat) (c : client)
    (prev final : gset string) (tr tr' : trace) :
  loop cycles c prev tr = (Running final, tr') →
  ∃ evs, tr' = tr ++ evs
    ∧ count_events is_players_query evs = cycles
    ∧ count_events is_sleep evs = cycles.
Proof.
  revert prev tr. induction cycles as [|n IH]; intros prev tr H; simpl in H.
  - inversion H; subst. exists []. rewrite app_nil_r. auto.
  - destruct (query_counts c tr) as (evs1 & E1 & Q1 & S1).
    destruct (getPlayers c tr) as [[names|e] tr1]; [|discriminate].
    simpl in E1. subst tr1.
    set (cur := list_to_set names : gset string) in *.
    destruct (WebhookFacts.forM_notify_trace srv cfg (set_order (cur ∖ prev))
                ((tr ++ evs1) ++ [Print (Sets prev cur (cur ∖ prev))]))
      as (k & E2).
    destruct (forM_ _ _ _) as [[u|e] tr3]; [|discriminate].
    simpl in E2. subst tr3.
    destruct (IH _ _ H) as (evs3 & -> & Q3 & S3).
    eexists. rewrite <- !app_assoc. split; [reflexivity|].
    rewrite !count_events_app, Q1, S1, Q3, S3.
    assert (Hn : ∀ l, count_events is_players_query
                        (map (λ name, Request (notification cfg name)) l) = 0%nat
                      ∧ count_events is_sleep
                        (map (λ name, Request (notification cfg name)) l) = 0%nat).
    { intros l. split; apply count_events_none; apply Forall_forall;
        intros ev Hev; apply list_elem_of_fmap in Hev as (x & -> & _);
        reflexivity. }
    destruct (Hn (take k (set_order (cur ∖ prev)))) as [-> ->].
    simpl. unfold count_events. simpl. lia.
Qed.

End Loop.
End WithServer.

Lemma loop_cycle_notifies_only_new_witness :
  ∃ evs,
    snd (loop loads0 repr0 elements srv_arrivals cfg0 1 self0
              (list_to_set ["Steve"]) [Request (players_request repr0 self0)])
    = [Request (players_request repr0 self0);
       Request (players_request repr0 self0);
       Request (username_request repr0 (PStr "u2"))] ++ evs
    ∧ ∀ name, Request (notification cfg0 name) ∈ evs →
        name ∈ ["Alex"] ∧ name ∉ (list_to_set ["Steve"] : gset string).
Proof.
  apply (loop_cycle_notifies_only_new loads0 repr0 srv_arrivals cfg0 elements
           self0 (list_to_set ["Steve"])
           [Request (players_request repr0 self0)]).
  - now vm_compute.
  - intros X x Hx. now apply elem_of_elements in Hx.
Defined.

Lemma loop_notification_failure_witness :
  loop Fixtures2.loads2 repr0 elements Fixtures2.srv_sink_once cfg0 3 self0 ∅ []
  = (Raised RequestException (list_to_set ["Steve"; "Alex"]),
     [Request (players_request repr0 self0);
      Request (username_request repr0 (PStr "u1"));
      Request (username_request repr0 (PStr "u2"))]
     ++ Print (Sets ∅ (list_to_set ["Steve"; "Alex"])
                    (list_to_set ["Steve"; "Alex"] ∖ ∅))
     :: map (λ name, Request (notification cfg0 name)) ["Steve"]
     ++ [Request (notification cfg0 "Alex")]).
Proof.
  apply (loop_notification_failure Fixtures2.loads2 repr0 Fixtures2.srv_sink_once
           cfg0 elements 2 self0 ∅ []
           [Request (players_request repr0 self0);
            Request (username_request repr0 (PStr "u1"));
            Request (username_request repr0 (PStr "u2"))]
           ["Steve"; "Alex"] ["Steve"] "Alex" []).
  - now vm_compute.
  - now vm_compute.
  - intros [|i] name Hi; [|destruct i; discriminate Hi].
    inversion Hi; subst name. eexists. now vm_compute.
  - now vm_compute.
Defined.

Lemma main_aborts_on_failed_handshake_witness :
  fst (main loads0 repr0 elements srv_denied cfg0 3)
  = Aborted (KeyError (KStr "access_token")).
Proof.
  rewrite (main_aborts_on_failed_handshake loads0 repr0 srv_denied cfg0 elements 3
             (KeyError (KStr "access_token"))
             (snd (authenticate repr0 srv_denied creds0 []))).
  - reflexivity.
  - now vm_compute.
Defined.

Lemma main_aborts_on_failed_first_query_witness :
  fst (main loads0 repr0 elements Fixtures2.srv_no_list cfg0 3)
  = Aborted RequestException.
Proof.
  assert (Hi : __init__ repr0 Fixtures2.srv_no_list (USERNAME cfg0) (EMAIL cfg0)
                        (PASSWORD cfg0) []
               = (Ok self0, snd (__init__ repr0 Fixtures2.srv_no_list "owner"
                                          "me@example.org" "pw" [])))
    by now vm_compute.
  assert (Hq : getPlayersList loads0 repr0 Fixtures2.srv_no_list self0 (SERVER_ID cfg0)
                 (snd (__init__ repr0 Fixtures2.srv_no_list "owner"
                                "me@example.org" "pw" []))
               = (Err RequestException,
                  snd (startup loads0 repr0 Fixtures2.srv_no_list cfg0 [])))
    by now vm_compute.
  rewrite (proj1 (main_aborts_on_failed_first_query loads0 repr0
                    Fixtures2.srv_no_list cfg0 elements 3 self0 RequestException
                    _ _ Hi Hq)).
  reflexivity.
Defined.

Lemma loop_one_query_per_cycle_witness :
  ∃ evs,
    snd (loop loads0 repr0 elements srv_arrivals cfg0 2 self0
              (list_to_set ["Steve"]) [Request (players_request repr0 self0)])
    = [Request (players_request repr0 self0)] ++ evs
    ∧ count_events is_players_query evs = 2%nat
    ∧ count_events is_sleep evs = 2%nat.
Proof.
  apply (loop_one_query_per_cycle loads0 repr0 srv_arrivals cfg0 elements 2 self0
           (list_to_set ["Steve"]) (list_to_set ["Alex"])
           [Request (players_request repr0 self0)]).
  now vm_compute.
Defined.


End PollerMore.

(** ** The body of the login POST *)

Module LoginMore.
Import PyStr Py Http Auth PrepareMore.

(** X20. The form body is built by plain concatenation, with no escaping of
    the values put in it: a password that ends with [&PPFT=] and a text
    gives the same request as the password without that ending and a tag
    that starts with the text. A password that holds ['&'] or ['='] is
    therefore not sent as one field. *)
Theorem login_request_no_escaping (authServerUrl email password tag tag' : string) :
  login_request authServerUrl tag'
    {| Auth.email := email; Auth.password := password +:+ "&PPFT=" +:+ tag |}
  = login_request authServerUrl (tag +:+ "&PPFT=" +:+ tag')
      {| Auth.email := email; Auth.password := password |}.
Proof.
  unfold login_request. simpl. do 3 f_equal.
  rewrite !append_assoc. reflexivity.
Qed.

End LoginMore.
